(** * Trezor boardloader: boot decision and SD-card recovery flow

    Shallow embedding of [core/embed/boardloader/main.c].

    The boardloader is sequential C code that drives a number of
    collaborators (flash driver, SD-card driver, display, image checks,
    fatal-error handler).  The collaborators are not part of this file of
    the firmware, so they are taken as a parameter ([Hardware]); the
    build-time macros the file uses are taken as a second parameter
    ([Config]).  The code itself is embedded in a state monad over a
    [World] holding the flash, the card, the SRAM read buffer and a
    chronological record of every collaborator call. *)

From Stdlib Require Import ZArith List String Bool Lia Arith.
Import ListNotations.
Local Open Scope string_scope.
Local Open Scope list_scope.
Local Open Scope Z_scope.

(** ** Build-time configuration (macros of the headers) *)

(** [secbool] is a 32-bit word; the code only ever compares against
    [sectrue], so every other value counts as failure. *)
Definition secbool := Z.

Record Config : Type := {
  sectrue : secbool;
  secfalse : secbool;
  PRODUCTION : bool;
  IMAGE_HEADER_SIZE : Z;
  SDCARD_BLOCK_SIZE : Z;
  BOOTLOADER_START : Z;
  BOOTLOADER_IMAGE_MAGIC : Z;
  BOOTLOADER_IMAGE_MAXSIZE : Z;
  FLASH_SECTOR_BOARDLOADER_START : Z;
  FLASH_SECTOR_BOARDLOADER_END : Z;
  FLASH_SECTOR_STORAGE_1 : Z;
  FLASH_SECTOR_STORAGE_2 : Z;
  FLASH_SECTOR_BOOTLOADER : Z;
  FLASH_SECTOR_FIRMWARE_START : Z;
  FLASH_SECTOR_FIRMWARE_END : Z;
  FLASH_SECTOR_UNUSED_START : Z;
  FLASH_SECTOR_UNUSED_END : Z;
  FLASH_SECTOR_FIRMWARE_EXTRA_START : Z;
  FLASH_SECTOR_FIRMWARE_EXTRA_END : Z;
  STORAGE_SECTORS : list Z;
  STORAGE_SECTORS_COUNT : Z
}.

(** ** Data *)

(** Word-addressed view of a RAM buffer ([uint32_t sram_start[]]). *)
Definition Buf := Z -> Z.

(** Where [load_image_header] is pointed at. *)
Inductive Source : Type :=
| SdcardBuf
| FlashAt (addr : Z).

(** One entry per collaborator call, with the value it returned. *)
Inductive Event : Type :=
| EvResetFlags
| EvPeriphInit
| EvClearOtgHsMemory
| EvDisplayInit
| EvDisplayClear
| EvDisplayBacklight (v : Z)
| EvDisplaySetBigEndian
| EvPrintf (fmt : string) (args : list Z)
| EvDelay (ms : Z)
| EvSdcardInit
| EvSdPowerOn (r : secbool)
| EvSdPowerOff
| EvSdCapacity (cap : Z)
| EvSdReadBlocks (block count : Z) (r : secbool)
| EvLoadImageHeader (src : Source) (r : secbool)
| EvCheckImageContents (sectors : list Z) (r : secbool)
| EvConfigureOptionBytes (r : secbool)
| EvEraseSectors (sectors : list Z) (len : Z) (r : secbool)
| EvUnlockWrite (r : secbool)
| EvLockWrite (r : secbool)
| EvWriteWord (sector offset data : Z) (r : secbool)
| EvFatalError (expr : string) (msg : option string)
| EvJumpTo (addr : Z).

(** How a piece of the program ends. *)
Inductive Outcome (A : Type) : Type :=
| Done (a : A)
| Fatal (expr : string) (msg : option string)
| HandOff (addr : Z)
| OutOfFuel.
Arguments Done {A} a.
Arguments Fatal {A} expr msg.
Arguments HandOff {A} addr.
Arguments OutOfFuel {A}.

(** ** Collaborators *)

Record Hardware : Type := {
  Flash : Type;
  Card : Type;
  image_header : Type;
  codelen : image_header -> Z;
  sdcard_init : Card -> Card;
  sdcard_power_on : Card -> secbool * Card;
  sdcard_power_off : Card -> Card;
  sdcard_get_capacity_in_bytes : Card -> Z;
  sdcard_read_blocks : Card -> Buf -> Z -> Z -> secbool * Buf * Card;
  load_image_header :
    Flash -> Buf -> Source -> Z -> Z -> Z -> Z -> list (list Z) ->
    secbool * image_header;
  check_image_contents : Flash -> image_header -> Z -> list Z -> Z -> secbool;
  flash_configure_option_bytes : Flash -> secbool * Flash;
  flash_erase_sectors : Flash -> list Z -> Z -> secbool * Flash * list (Z * Z);
  flash_unlock_write : Flash -> secbool * Flash;
  flash_lock_write : Flash -> secbool * Flash;
  flash_write_word : Flash -> Z -> Z -> Z -> secbool * Flash
}.

(** ** Keys (lines 38-50) *)

Definition BOARDLOADER_KEY_M : Z := 2.
Definition BOARDLOADER_KEY_N : Z := 3.

Definition BOARDLOADER_KEYS (production : bool) : list (list Z) :=
  if production then
    [ [0x0e;0xb9;0x85;0x6b;0xe9;0xba;0x7e;0x97;0x2c;0x7f;0x34;0xea;0xc1;0xed;0x9b;0x6f;
       0xd0;0xef;0xd1;0x72;0xec;0x00;0xfa;0xf0;0xc5;0x89;0x75;0x9d;0xa4;0xdd;0xfb;0xa0];
      [0xac;0x8a;0xb4;0x0b;0x32;0xc9;0x86;0x55;0x79;0x8f;0xd5;0xda;0x5e;0x19;0x2b;0xe2;
       0x7a;0x22;0x30;0x6e;0xa0;0x5c;0x6d;0x27;0x7c;0xdf;0xf4;0xa3;0xf4;0x12;0x5c;0xd8];
      [0xce;0x0f;0xcd;0x12;0x54;0x3e;0xf5;0x93;0x6c;0xf2;0x80;0x49;0x82;0x13;0x67;0x07;
       0x86;0x3d;0x17;0x29;0x5f;0xac;0xed;0x72;0xaf;0x17;0x1d;0x6e;0x65;0x13;0xff;0x06] ]
  else
    [ [0xdb;0x99;0x5f;0xe2;0x51;0x69;0xd1;0x41;0xca;0xb9;0xbb;0xba;0x92;0xba;0xa0;0x1f;
       0x9f;0x2e;0x1e;0xce;0x7d;0xf4;0xcb;0x2a;0xc0;0x51;0x90;0xf3;0x7f;0xcc;0x1f;0x9d];
      [0x21;0x52;0xf8;0xd1;0x9b;0x79;0x1d;0x24;0x45;0x32;0x42;0xe1;0x5f;0x2e;0xab;0x6c;
       0xb7;0xcf;0xfa;0x7b;0x6a;0x5e;0xd3;0x00;0x97;0x96;0x0e;0x06;0x98;0x81;0xdb;0x12];
      [0x22;0xfc;0x29;0x77;0x92;0xf0;0xb6;0xff;0xc0;0xbf;0xcf;0xdb;0x7e;0xdb;0x0c;0x0a;
       0xa1;0x4e;0x02;0x5a;0x36;0x5e;0xc0;0xe3;0x42;0xe8;0x6e;0x38;0x29;0xcb;0x74;0xb6] ].

(** Arithmetic on [uint32_t]. *)
Definition wrap32 (z : Z) : Z := z mod 2 ^ 32.

(** ** The program *)

Section Boardloader.

Variable cfg : Config.
Variable hw : Hardware.

(** [log] is newest-first. *)
Record World : Type := mkWorld {
  flash : Flash hw;
  card : Card hw;
  sram : Buf;
  log : list Event
}.

Definition M (A : Type) : Type := World -> Outcome A * World.

Definition ret {A} (a : A) : M A := fun w => (Done a, w).

Definition bind {A B} (m : M A) (k : A -> M B) : M B :=
  fun w =>
    match m w with
    | (Done a, w') => k a w'
    | (Fatal e s, w') => (Fatal e s, w')
    | (HandOff a, w') => (HandOff a, w')
    | (OutOfFuel, w') => (OutOfFuel, w')
    end.

Notation "x <- m ;; k" := (bind m (fun x => k))
  (at level 100, m at next level, right associativity).
Notation "m ;; k" := (bind m (fun _ => k))
  (at level 100, right associativity).

Definition emit (e : Event) : M unit :=
  fun w => (Done tt, mkWorld (flash w) (card w) (sram w) (e :: log w)).

(** *** Collaborator calls, each recorded with its result *)

Definition reset_flags_reset : M unit := emit EvResetFlags.
Definition periph_init : M unit := emit EvPeriphInit.
Definition clear_otg_hs_memory : M unit := emit EvClearOtgHsMemory.
Definition display_init : M unit := emit EvDisplayInit.
Definition display_clear : M unit := emit EvDisplayClear.
Definition display_backlight (v : Z) : M unit := emit (EvDisplayBacklight v).
Definition display_set_big_endian : M unit := emit EvDisplaySetBigEndian.
Definition display_printf (fmt : string) (args : list Z) : M unit :=
  emit (EvPrintf fmt args).
Definition hal_delay (ms : Z) : M unit := emit (EvDelay ms).

Definition do_sdcard_init : M unit :=
  fun w =>
    (Done tt, mkWorld (flash w) (sdcard_init hw (card w)) (sram w)
                      (EvSdcardInit :: log w)).

Definition do_sdcard_power_on : M secbool :=
  fun w =>
    let x := sdcard_power_on hw (card w) in
    (Done (fst x), mkWorld (flash w) (snd x) (sram w) (EvSdPowerOn (fst x) :: log w)).

Definition do_sdcard_power_off : M unit :=
  fun w =>
    (Done tt, mkWorld (flash w) (sdcard_power_off hw (card w)) (sram w)
                      (EvSdPowerOff :: log w)).

Definition do_sdcard_get_capacity_in_bytes : M Z :=
  fun w =>
    let cap := sdcard_get_capacity_in_bytes hw (card w) in
    (Done cap, mkWorld (flash w) (card w) (sram w) (EvSdCapacity cap :: log w)).

(** [sdcard_read_blocks(sdcard_buf, block, count)]. *)
Definition do_sdcard_read_blocks (block count : Z) : M secbool :=
  fun w =>
    let x := sdcard_read_blocks hw (card w) (sram w) block count in
    (Done (fst (fst x)),
     mkWorld (flash w) (snd x) (snd (fst x))
             (EvSdReadBlocks block count (fst (fst x)) :: log w)).

(** [memzero(sdcard_buf, nbytes)]. *)
Definition memzero (nbytes : Z) : M unit :=
  fun w =>
    (Done tt,
     mkWorld (flash w) (card w)
             (fun i => if (0 <=? i) && (i <? Z.quot nbytes 4) then 0 else sram w i)
             (log w)).

(** [sdcard_buf[j]]. *)
Definition sdcard_buf (j : Z) : M Z := fun w => (Done (sram w j), w).

Definition do_load_image_header (src : Source) (magic maxsize m n : Z)
    (keys : list (list Z)) : M (secbool * image_header hw) :=
  fun w =>
    let res := load_image_header hw (flash w) (sram w) src magic maxsize m n keys in
    (Done res,
     mkWorld (flash w) (card w) (sram w) (EvLoadImageHeader src (fst res) :: log w)).

Definition do_check_image_contents (hdr : image_header hw) (firstskip : Z)
    (sectors : list Z) (blocks : Z) : M secbool :=
  fun w =>
    let r := check_image_contents hw (flash w) hdr firstskip sectors blocks in
    (Done r,
     mkWorld (flash w) (card w) (sram w) (EvCheckImageContents sectors r :: log w)).

Definition do_flash_configure_option_bytes : M secbool :=
  fun w =>
    let x := flash_configure_option_bytes hw (flash w) in
    (Done (fst x),
     mkWorld (snd x) (card w) (sram w) (EvConfigureOptionBytes (fst x) :: log w)).

Definition do_flash_unlock_write : M secbool :=
  fun w =>
    let x := flash_unlock_write hw (flash w) in
    (Done (fst x), mkWorld (snd x) (card w) (sram w) (EvUnlockWrite (fst x) :: log w)).

Definition do_flash_lock_write : M secbool :=
  fun w =>
    let x := flash_lock_write hw (flash w) in
    (Done (fst x), mkWorld (snd x) (card w) (sram w) (EvLockWrite (fst x) :: log w)).

Definition do_flash_write_word (sector offset data : Z) : M secbool :=
  fun w =>
    let x := flash_write_word hw (flash w) sector offset data in
    (Done (fst x),
     mkWorld (snd x) (card w) (sram w)
             (EvWriteWord sector offset data (fst x) :: log w)).

(** Line 109: the progress callback prints one dot per notification. *)
Definition progress_callback (pos len : Z) : M unit := display_printf "." [].

Fixpoint notify (progress : option (Z -> Z -> M unit)) (calls : list (Z * Z))
    : M unit :=
  match calls with
  | [] => ret tt
  | (pos, len) :: rest =>
      match progress with
      | Some cb => cb pos len ;; notify progress rest
      | None => notify progress rest
      end
  end.

(** [flash_erase_sectors(sectors, len, progress)]: the driver reports the
    notifications it makes; they are delivered to the callback when one is
    given. *)
Definition do_flash_erase_sectors (sectors : list Z) (len : Z)
    (progress : option (Z -> Z -> M unit)) : M secbool :=
  fun w =>
    let x := flash_erase_sectors hw (flash w) sectors len in
    let r := fst (fst x) in
    match notify progress (snd x)
            (mkWorld (snd (fst x)) (card w) (sram w) (log w)) with
    | (Done _, w') =>
        (Done r, mkWorld (flash w') (card w') (sram w')
                         (EvEraseSectors sectors len r :: log w'))
    | (Fatal e s, w') => (Fatal e s, w')
    | (HandOff a, w') => (HandOff a, w')
    | (OutOfFuel, w') => (OutOfFuel, w')
    end.

(** Modelled from the spec: the [ensure] macro and the fatal-error handler
    behind it are not in this file.  The spec describes them as the
    halt-and-never-return primitive: a value other than [sectrue] ends the
    run in a non-returning halt. *)
Definition ensure (r : secbool) (expr : string) (msg : option string) : M unit :=
  if r =? sectrue cfg then ret tt
  else fun w =>
    (Fatal expr msg,
     mkWorld (flash w) (card w) (sram w) (EvFatalError expr msg :: log w)).

(** Modelled from the spec: [jump_to] is the irreversible transfer of
    execution to the next stage; it never returns. *)
Definition jump_to (addr : Z) : M unit :=
  fun w =>
    (HandOff addr, mkWorld (flash w) (card w) (sram w) (EvJumpTo addr :: log w)).

(** *** check_sdcard (lines 78-107) *)

Definition check_sdcard : M Z :=
  r <- do_sdcard_power_on ;;
  if negb (sectrue cfg =? r) then ret 0
  else
    cap <- do_sdcard_get_capacity_in_bytes ;;
    if cap <? 1024 * 1024 then
      do_sdcard_power_off ;;
      ret 0
    else
      memzero (IMAGE_HEADER_SIZE cfg) ;;
      read_status <-
        do_sdcard_read_blocks 0
          (Z.quot (IMAGE_HEADER_SIZE cfg) (SDCARD_BLOCK_SIZE cfg)) ;;
      do_sdcard_power_off ;;
      if sectrue cfg =? read_status then
        res <- do_load_image_header SdcardBuf (BOOTLOADER_IMAGE_MAGIC cfg)
                 (BOOTLOADER_IMAGE_MAXSIZE cfg) BOARDLOADER_KEY_M
                 BOARDLOADER_KEY_N (BOARDLOADER_KEYS (PRODUCTION cfg)) ;;
        if sectrue cfg =? fst res then ret (codelen hw (snd res)) else ret 0
      else ret 0.

(** *** copy_sdcard (lines 111-192) *)

(** Lines 123-131: [for (int i = 10; i >= 0; i--)], with the loop test
    written out.  [None] is the early [return secfalse]; [Some codelen] is
    the loop running to its end.  [fuel] bounds the number of iterations;
    [copy_sdcard] gives 12, and [countdown_returns] shows that this is
    never used up. *)
Fixpoint countdown (fuel : nat) (i : Z) (codelen0 : Z) : M (option Z) :=
  match fuel with
  | O => fun w => (OutOfFuel, w)
  | S fuel' =>
      if i >=? 0 then
        display_printf "%d " [i] ;;
        hal_delay 1000 ;;
        c <- check_sdcard ;;
        if 0 =? c then
          display_printf "\n\nno SD card, aborting\n" [] ;;
          ret None
        else countdown fuel' (i - 1) c
      else ret (Some codelen0)
  end.

(** Lines 136-158. *)
Definition sectors : list Z :=
  [ FLASH_SECTOR_STORAGE_1 cfg;
    FLASH_SECTOR_STORAGE_2 cfg;
    3;
    FLASH_SECTOR_BOOTLOADER cfg;
    FLASH_SECTOR_FIRMWARE_START cfg;
    7;
    8;
    9;
    10;
    FLASH_SECTOR_FIRMWARE_END cfg;
    FLASH_SECTOR_UNUSED_START cfg;
    13;
    14;
    FLASH_SECTOR_UNUSED_END cfg;
    FLASH_SECTOR_FIRMWARE_EXTRA_START cfg;
    18;
    19;
    20;
    21;
    22;
    FLASH_SECTOR_FIRMWARE_EXTRA_END cfg ].

(** A counting loop [for (int k = start; k < start + n; k++) body(k)]. *)
Fixpoint for_up (n : nat) (k : Z) (body : Z -> M unit) : M unit :=
  match n with
  | O => ret tt
  | S n' => body k ;; for_up n' (k + 1) body
  end.

(** Lines 177-182: the words of block [i]; the offset is a [uint32_t]
    and [sizeof(uint32_t)] is 4. *)
Definition write_block_words (i : Z) : M unit :=
  for_up (Z.to_nat (Z.quot (SDCARD_BLOCK_SIZE cfg) 4)) 0
    (fun j =>
       d <- sdcard_buf j ;;
       r <- do_flash_write_word (FLASH_SECTOR_BOOTLOADER cfg)
              (wrap32 (i * SDCARD_BLOCK_SIZE cfg + j * 4)) d ;;
       ensure r "flash_write_word" None).

(** Number of iterations of the block loop, line 175: [codelen] is a
    [uint32_t], so the sum wraps and the division is unsigned. *)
Definition block_count (codelen0 : Z) : Z :=
  Z.quot (wrap32 (IMAGE_HEADER_SIZE cfg + codelen0)) (SDCARD_BLOCK_SIZE cfg).

(** Lines 175-183. *)
Definition copy_blocks (codelen0 : Z) : M unit :=
  for_up (Z.to_nat (block_count codelen0)) 0
    (fun i =>
       r <- do_sdcard_read_blocks i 1 ;;
       ensure r "sdcard_read_blocks" None ;;
       write_block_words i).

(** Lines 133-191: what follows a countdown that ran to its end. *)
Definition erase_and_copy (codelen0 : Z) : M secbool :=
  display_printf "\n\nerasing flash:\n\n" [] ;;
  er <- do_flash_erase_sectors sectors (Z.of_nat (List.length sectors))
          (Some progress_callback) ;;
  if negb (sectrue cfg =? er) then
    display_printf " failed\n" [] ;;
    ret (secfalse cfg)
  else
    display_printf " done\n\n" [] ;;
    ur <- do_flash_unlock_write ;;
    ensure ur "flash_unlock_write" None ;;
    display_printf "copying new bootloader from SD card\n\n" [] ;;
    pr <- do_sdcard_power_on ;;
    ensure pr "sdcard_power_on" None ;;
    memzero (SDCARD_BLOCK_SIZE cfg) ;;
    copy_blocks codelen0 ;;
    do_sdcard_power_off ;;
    lr <- do_flash_lock_write ;;
    ensure lr "flash_lock_write" None ;;
    display_printf "\ndone\n\n" [] ;;
    display_printf "Unplug the device and remove the SD card\n" [] ;;
    ret (sectrue cfg).

Definition copy_sdcard : M secbool :=
  display_backlight 255 ;;
  display_printf "Trezor Boardloader\n" [] ;;
  display_printf "==================\n\n" [] ;;
  display_printf "bootloader found on the SD card\n\n" [] ;;
  display_printf "applying bootloader in 10 seconds\n\n" [] ;;
  display_printf "unplug now if you want to abort\n\n" [] ;;
  oc <- countdown 12 10 0 ;;
  match oc with
  | None => ret (secfalse cfg)
  | Some codelen0 => erase_and_copy codelen0
  end.

(** *** set_bld_compatible_settings (lines 198-202, model T) *)

Definition set_bld_compatible_settings : M unit := display_set_big_endian.

(** *** main (lines 204-251, model T) *)

Definition main : M Z :=
  reset_flags_reset ;;
  periph_init ;;
  ob <- do_flash_configure_option_bytes ;;
  if negb (sectrue cfg =? ob) then
    _r <- do_flash_erase_sectors (STORAGE_SECTORS cfg) (STORAGE_SECTORS_COUNT cfg)
            None ;;
    ret 2
  else
    clear_otg_hs_memory ;;
    display_init ;;
    display_clear ;;
    do_sdcard_init ;;
    found <- check_sdcard ;;
    if negb (found =? 0) then
      cr <- copy_sdcard ;;
      ret (if cr =? sectrue cfg then 0 else 3)
    else
      res <- do_load_image_header (FlashAt (BOOTLOADER_START cfg))
               (BOOTLOADER_IMAGE_MAGIC cfg) (BOOTLOADER_IMAGE_MAXSIZE cfg)
               BOARDLOADER_KEY_M BOARDLOADER_KEY_N
               (BOARDLOADER_KEYS (PRODUCTION cfg)) ;;
      ensure (fst res) "load_image_header" (Some "invalid bootloader header") ;;
      cc <- do_check_image_contents (snd res) (IMAGE_HEADER_SIZE cfg)
              [FLASH_SECTOR_BOOTLOADER cfg] 1 ;;
      ensure cc "check_image_contents" (Some "invalid bootloader hash") ;;
      set_bld_compatible_settings ;;
      jump_to (BOOTLOADER_START cfg + IMAGE_HEADER_SIZE cfg) ;;
      ret 0.

(** A run starts with an empty record. *)
Definition boot (f : Flash hw) (c : Card hw) (b : Buf) : World :=
  mkWorld f c b [].

End Boardloader.

Arguments mkWorld {hw} _ _ _ _.
Arguments flash {hw} _.
Arguments card {hw} _.
Arguments sram {hw} _.
Arguments log {hw} _.
Arguments boot {hw} _ _ _.

(** ** Observations on a record of calls *)

Definition is_delay (e : Event) : bool :=
  match e with EvDelay _ => true | _ => false end.

Definition is_erase (e : Event) : bool :=
  match e with EvEraseSectors _ _ _ => true | _ => false end.

Definition is_write (e : Event) : bool :=
  match e with EvWriteWord _ _ _ _ => true | _ => false end.

Definition is_unlock (e : Event) : bool :=
  match e with EvUnlockWrite _ => true | _ => false end.

Definition is_lock (e : Event) : bool :=
  match e with EvLockWrite _ => true | _ => false end.

Definition is_power_on (e : Event) : bool :=
  match e with EvSdPowerOn _ => true | _ => false end.

Definition is_power_off (e : Event) : bool :=
  match e with EvSdPowerOff => true | _ => false end.

Definition is_block_read (e : Event) : bool :=
  match e with EvSdReadBlocks _ _ _ => true | _ => false end.

Definition is_check_contents (e : Event) : bool :=
  match e with EvCheckImageContents _ _ => true | _ => false end.

Definition is_jump (e : Event) : bool :=
  match e with EvJumpTo _ => true | _ => false end.

Definition count (p : Event -> bool) (l : list Event) : nat :=
  List.length (filter p l).

(** The boardloader's own sectors. *)
Definition own_sector (cfg : Config) (s : Z) : Prop :=
  FLASH_SECTOR_BOARDLOADER_START cfg <= s <= FLASH_SECTOR_BOARDLOADER_END cfg.

(** The regions the sector list names (the macros of lines 137-157). *)
Definition named_regions (cfg : Config) : list Z :=
  [ FLASH_SECTOR_STORAGE_1 cfg; FLASH_SECTOR_STORAGE_2 cfg;
    FLASH_SECTOR_BOOTLOADER cfg;
    FLASH_SECTOR_FIRMWARE_START cfg; FLASH_SECTOR_FIRMWARE_END cfg;
    FLASH_SECTOR_UNUSED_START cfg; FLASH_SECTOR_UNUSED_END cfg;
    FLASH_SECTOR_FIRMWARE_EXTRA_START cfg; FLASH_SECTOR_FIRMWARE_EXTRA_END cfg ].

(** The card polled [n] more times after the first poll: the outcome of poll
    number [n] (counting from 0) when every earlier poll went through. *)
Fixpoint poll (cfg : Config) (hw : Hardware) (n : nat) (w : World hw)
    : Outcome Z * World hw :=
  match n with
  | O => check_sdcard cfg hw w
  | S n' => poll cfg hw n' (snd (check_sdcard cfg hw w))
  end.

(** ** One assignment of the macros: the Model T values *)

Definition model_t : Config := {|
  sectrue := 0xAAAAAAAA;
  secfalse := 0;
  PRODUCTION := false;
  IMAGE_HEADER_SIZE := 0x400;
  SDCARD_BLOCK_SIZE := 512;
  BOOTLOADER_START := 0x08020000;
  BOOTLOADER_IMAGE_MAGIC := 0x425A5254;
  BOOTLOADER_IMAGE_MAXSIZE := 128 * 1024;
  FLASH_SECTOR_BOARDLOADER_START := 0;
  FLASH_SECTOR_BOARDLOADER_END := 2;
  FLASH_SECTOR_STORAGE_1 := 4;
  FLASH_SECTOR_STORAGE_2 := 16;
  FLASH_SECTOR_BOOTLOADER := 5;
  FLASH_SECTOR_FIRMWARE_START := 6;
  FLASH_SECTOR_FIRMWARE_END := 11;
  FLASH_SECTOR_UNUSED_START := 12;
  FLASH_SECTOR_UNUSED_END := 15;
  FLASH_SECTOR_FIRMWARE_EXTRA_START := 17;
  FLASH_SECTOR_FIRMWARE_EXTRA_END := 23;
  STORAGE_SECTORS := [4; 16];
  STORAGE_SECTORS_COUNT := 2
|}.

(** ** A scripted board, for running the program on concrete inputs *)

Module Sim.

(** The card answers [power_ons] power-on calls and [reads] block reads
    before it stops answering; the image on it declares [declared] bytes
    of code. *)
Record card : Type := mkCard {
  power_ons : nat;
  reads : nat;
  capacity : Z;
  declared : Z
}.

Record flash : Type := mkFlash {
  option_bytes_ok : bool;
  erase_ok : bool;
  header_ok : bool;
  hash_ok : bool;
  writes : nat;
  locked : bool;
  cells : list (Z * Z * Z)
}.

Definition yes : Z := sectrue model_t.
Definition no : Z := secfalse model_t.

Definition power_on (c : card) : secbool * card :=
  match power_ons c with
  | O => (no, c)
  | S n => (yes, mkCard n (reads c) (capacity c) (declared c))
  end.

Definition read_blocks (c : card) (b : Buf) (block n : Z) : secbool * Buf * card :=
  match reads c with
  | O => (no, b, c)
  | S k =>
      (yes,
       (fun i =>
          if i =? 0 then (if block =? 0 then BOOTLOADER_IMAGE_MAGIC model_t else block)
          else if i =? 1 then (if block =? 0 then declared c else i)
          else if (0 <=? i) && (i <? n * 128) then i else b i),
       mkCard (power_ons c) k (capacity c) (declared c))
  end.

Definition load (f : flash) (b : Buf) (src : Source) (magic maxsize m n : Z)
    (keys : list (list Z)) : secbool * Z :=
  match src with
  | SdcardBuf => if b 0 =? magic then (yes, b 1) else (no, 0)
  | FlashAt _ => if header_ok f then (yes, 0x1000) else (no, 0)
  end.

Definition check (f : flash) (hdr : Z) (firstskip : Z) (secs : list Z) (n : Z)
    : secbool :=
  if hash_ok f then yes else no.

Definition configure (f : flash) : secbool * flash :=
  (if option_bytes_ok f then yes else no, f).

Definition erase (f : flash) (secs : list Z) (len : Z)
    : secbool * flash * list (Z * Z) :=
  if erase_ok f then
    (yes,
     mkFlash (option_bytes_ok f) (erase_ok f) false false (writes f) (locked f) [],
     map (fun s => (s, len)) secs)
  else (no, f, []).

Definition set_locked (b : bool) (f : flash) : secbool * flash :=
  (yes,
   mkFlash (option_bytes_ok f) (erase_ok f) (header_ok f) (hash_ok f) (writes f)
           b (cells f)).

Definition write_word (f : flash) (sector offset data : Z) : secbool * flash :=
  match writes f with
  | O => (no, f)
  | S k =>
      (yes,
       mkFlash (option_bytes_ok f) (erase_ok f) (header_ok f) (hash_ok f) k
               (locked f) ((sector, offset, data) :: cells f))
  end.

Definition board : Hardware := {|
  Flash := flash;
  Card := card;
  image_header := Z;
  codelen := fun h => h;
  sdcard_init := fun c => c;
  sdcard_power_on := power_on;
  sdcard_power_off := fun c => c;
  sdcard_get_capacity_in_bytes := capacity;
  sdcard_read_blocks := read_blocks;
  load_image_header := load;
  check_image_contents := check;
  flash_configure_option_bytes := configure;
  flash_erase_sectors := erase;
  flash_unlock_write := set_locked false;
  flash_lock_write := set_locked true;
  flash_write_word := write_word
|}.

(** A flash holding a good bootloader, with room for [n] word writes. *)
Definition good_flash (n : nat) : flash := mkFlash true true true true n true [].

(** A flash whose resident image has a valid header but a wrong hash. *)
Definition tampered_flash : flash := mkFlash true true true false 0 true [].

(** A flash whose option bytes cannot be configured. *)
Definition misconfigured_flash : flash := mkFlash false true true true 0 true [].

(** A flash whose resident image has a bad header. *)
Definition corrupt_flash : flash := mkFlash true true false true 0 true [].

(** A flash whose erase fails. *)
Definition stuck_flash : flash := mkFlash true false true true 0 true [].

(** A 16 MiB card with a bootloader image of 0x300 code bytes that answers
    [p] power-on calls and [r] block reads. *)
Definition card_with (p r : nat) : card := mkCard p r (16 * 1024 * 1024) 0x300.

(** No card in the slot. *)
Definition no_card : card := mkCard 0 0 0 0.

Definition blank : Buf := fun _ => 0.

Definition run_main (f : flash) (c : card) : Outcome Z * World board :=
  main model_t board (boot (hw := board) f c blank).

Definition run_copy (f : flash) (c : card) : Outcome secbool * World board :=
  copy_sdcard model_t board (boot (hw := board) f c blank).

Definition run_check (f : flash) (c : card) : Outcome Z * World board :=
  check_sdcard model_t board (boot (hw := board) f c blank).

End Sim.

(** The world after lines 112-119 of [copy_sdcard]. *)
Definition after_banner {hw : Hardware} (w : World hw) : World hw :=
  mkWorld (flash w) (card w) (sram w)
    (EvPrintf "unplug now if you want to abort\n\n" []
     :: EvPrintf "applying bootloader in 10 seconds\n\n" []
     :: EvPrintf "bootloader found on the SD card\n\n" []
     :: EvPrintf "==================\n\n" []
     :: EvPrintf "Trezor Boardloader\n" []
     :: EvDisplayBacklight 255 :: log w).

(** ** Judgements on pieces of the program *)

(** [l'] is [l] with newer entries on top, all of them in [P]. *)
Definition grows (P : Event -> Prop) (l l' : list Event) : Prop :=
  exists evs, l' = evs ++ l /\ Forall P evs.

(** [m] only records calls in [P]; when it halts or hands off, the call
    that did so is among them; and it does not run out of fuel. *)
Definition sound {hw : Hardware} {A : Type} (P : Event -> Prop) (m : M hw A)
    : Prop :=
  forall w,
    exists evs,
      log (snd (m w)) = evs ++ log w /\ Forall P evs /\
      match fst (m w) with
      | Done _ => True
      | Fatal e s => In (EvFatalError e s) evs
      | HandOff a => In (EvJumpTo a) evs
      | OutOfFuel => False
      end.

(** Two worlds that differ at most in what has been recorded so far. *)
Definition same_board {hw : Hardware} (w1 w2 : World hw) : Prop :=
  flash w1 = flash w2 /\ card w1 = card w2 /\ sram w1 = sram w2.

(** What detection may record. *)
Definition detect_fp (e : Event) : Prop :=
  match e with
  | EvSdPowerOn _ | EvSdPowerOff | EvSdCapacity _ | EvSdReadBlocks _ _ _ => True
  | EvLoadImageHeader src _ => src = SdcardBuf
  | _ => False
  end.

(** What the countdown may record. *)
Definition countdown_fp (e : Event) : Prop :=
  match e with
  | EvPrintf _ _ => True
  | EvDelay ms => ms = 1000
  | _ => detect_fp e
  end.

(** What erasing and copying may record. *)
Definition apply_fp (cfg : Config) (e : Event) : Prop :=
  match e with
  | EvPrintf fmt _ => fmt <> "%d "
  | EvSdPowerOn _ | EvSdPowerOff | EvUnlockWrite _ | EvLockWrite _ => True
  | EvSdReadBlocks _ n _ => n = 1
  | EvEraseSectors s l _ => s = sectors cfg /\ l = 21
  | EvWriteWord s _ _ _ => s = FLASH_SECTOR_BOOTLOADER cfg
  | EvFatalError e s =>
      s = None /\
      (e = "flash_unlock_write" \/ e = "sdcard_power_on" \/
       e = "sdcard_read_blocks" \/ e = "flash_write_word" \/
       e = "flash_lock_write")
  | _ => False
  end.

(** No failed block read and no failed word write. *)
Definition succeeded (cfg : Config) (e : Event) : Prop :=
  match e with
  | EvSdReadBlocks _ _ r | EvWriteWord _ _ _ r => r = sectrue cfg
  | _ => True
  end.

(** What the block loop may record when it copies [n] blocks. *)
Definition blocks_fp (cfg : Config) (n : Z) (e : Event) : Prop :=
  match e with
  | EvSdReadBlocks i k _ => 0 <= i < n /\ k = 1
  | EvWriteWord s off _ _ =>
      s = FLASH_SECTOR_BOOTLOADER cfg /\ 0 <= off < n * SDCARD_BLOCK_SIZE cfg
  | EvFatalError e s =>
      s = None /\ (e = "sdcard_read_blocks" \/ e = "flash_write_word")
  | _ => False
  end.

(** What the recovery flow may record. *)
Definition copy_fp (cfg : Config) (e : Event) : Prop :=
  e = EvDisplayBacklight 255 \/ countdown_fp e \/ apply_fp cfg e.

(** What [main] may record before it turns to the resident image. *)
Definition prelude_fp (cfg : Config) (e : Event) : Prop :=
  match e with
  | EvResetFlags | EvPeriphInit | EvConfigureOptionBytes _ | EvClearOtgHsMemory
  | EvDisplayInit | EvDisplayClear | EvSdcardInit => True
  | _ => copy_fp cfg e
  end.

(** ** Further observations on a record of calls *)

Definition is_dot (e : Event) : bool :=
  match e with EvPrintf fmt _ => String.eqb fmt "." | _ => false end.

Definition is_load_header (e : Event) : bool :=
  match e with EvLoadImageHeader _ _ => true | _ => false end.

Definition is_set_big_endian (e : Event) : bool :=
  match e with EvDisplaySetBigEndian => true | _ => false end.

(** The offsets of the word writes of a record, oldest first. *)
Fixpoint write_offsets (l : list Event) : list Z :=
  match l with
  | [] => []
  | EvWriteWord _ off _ _ :: l' => write_offsets l' ++ [off]
  | _ :: l' => write_offsets l'
  end.

(** What the block loop records when nothing fails: single-block reads
    and word writes to the bootloader sector, all successful. *)
Definition block_event (cfg : Config) (e : Event) : Prop :=
  match e with
  | EvSdReadBlocks _ k r => k = 1 /\ r = sectrue cfg
  | EvWriteWord s _ _ r => s = FLASH_SECTOR_BOOTLOADER cfg /\ r = sectrue cfg
  | _ => False
  end.

(** What the block loop may record at all. *)
Definition loop_fp (cfg : Config) (e : Event) : Prop :=
  match e with
  | EvSdReadBlocks _ k _ => k = 1
  | EvWriteWord s _ _ _ => s = FLASH_SECTOR_BOOTLOADER cfg
  | EvFatalError e s =>
      s = None /\ (e = "sdcard_read_blocks" \/ e = "flash_write_word")
  | _ => False
  end.

(** What [copy_sdcard] may record up to the end of its countdown. *)
Definition quiet_fp (e : Event) : Prop :=
  e = EvDisplayBacklight 255 \/ countdown_fp e.

(** Lines 133-160 as recorded: the banner, one dot per progress
    notification, and the erase with its result. *)
Definition erase_part (cfg : Config) (k : nat) (er : secbool) : list Event :=
  EvEraseSectors (sectors cfg) 21 er
  :: repeat (EvPrintf "." []) k ++ [EvPrintf "\n\nerasing flash:\n\n" []].

(** What [main] has recorded when it reaches [check_sdcard]. *)
Definition init_events (ob : secbool) : list Event :=
  [EvSdcardInit; EvDisplayClear; EvDisplayInit; EvClearOtgHsMemory;
   EvConfigureOptionBytes ob; EvPeriphInit; EvResetFlags].

(** How the write sequence of lines 166-191 can end, and what it has
    recorded by then (newest first), when it writes [n] words. *)
Definition write_tail (cfg : Config) (n : nat) (r : Outcome secbool)
    (tail : list Event) : Prop :=
  (exists ur,
      ur <> sectrue cfg /\ r = Fatal "flash_unlock_write" None /\
      tail = [EvFatalError "flash_unlock_write" None; EvUnlockWrite ur])
  \/
  (exists pr,
      pr <> sectrue cfg /\ r = Fatal "sdcard_power_on" None /\
      tail = [EvFatalError "sdcard_power_on" None; EvSdPowerOn pr;
              EvPrintf "copying new bootloader from SD card\n\n" [];
              EvUnlockWrite (sectrue cfg)])
  \/
  (exists blocks e,
      (e = "sdcard_read_blocks" \/ e = "flash_write_word") /\
      r = Fatal e None /\ Forall (loop_fp cfg) blocks /\
      tail = blocks ++
             [EvSdPowerOn (sectrue cfg);
              EvPrintf "copying new bootloader from SD card\n\n" [];
              EvUnlockWrite (sectrue cfg)])
  \/
  (exists blocks lr closing,
      Forall (block_event cfg) blocks /\ count is_write blocks = n /\
      tail = closing ++ EvLockWrite lr :: EvSdPowerOff :: blocks ++
             [EvSdPowerOn (sectrue cfg);
              EvPrintf "copying new bootloader from SD card\n\n" [];
              EvUnlockWrite (sectrue cfg)] /\
      ((lr = sectrue cfg /\ r = Done (sectrue cfg) /\
        closing = [EvPrintf "Unplug the device and remove the SD card\n" [];
                   EvPrintf "\ndone\n\n" []])
       \/
       (lr <> sectrue cfg /\ r = Fatal "flash_lock_write" None /\
        closing = [EvFatalError "flash_lock_write" None]))).

(** What [main] may record after its first three calls. *)
Definition body_fp (e : Event) : Prop :=
  match e with
  | EvResetFlags | EvPeriphInit | EvConfigureOptionBytes _ => False
  | _ => True
  end.

(** ** Copying whole blocks, as the specification describes it *)

(** Block [i] written from the buffer [buf]: word [j] of the buffer goes
    to byte offset [i * SDCARD_BLOCK_SIZE + 4 * j] of the bootloader
    sector.  Oldest first. *)
Definition block_writes (cfg : Config) (i : Z) (buf : Buf) : list Event :=
  map (fun j =>
         EvWriteWord (FLASH_SECTOR_BOOTLOADER cfg)
           (i * SDCARD_BLOCK_SIZE cfg + 4 * Z.of_nat j) (buf (Z.of_nat j))
           (sectrue cfg))
      (seq 0 (Z.to_nat (SDCARD_BLOCK_SIZE cfg / 4))).

(** The [n] blocks from block [i] on, copied from the card [c]: each
    block is read on its own into the buffer and then written from it.
    Oldest first. *)
Fixpoint copied_blocks (cfg : Config) (hw : Hardware) (n : nat) (i : Z)
    (c : Card hw) (b : Buf) : list Event :=
  match n with
  | O => []
  | S n' =>
      let x := sdcard_read_blocks hw c b i 1 in
      EvSdReadBlocks i 1 (sectrue cfg)
      :: block_writes cfg i (snd (fst x))
      ++ copied_blocks cfg hw n' (i + 1) (snd x) (snd (fst x))
  end.

(** How a loop of driver calls under [ensure] ends, from the record [l]
    to the record [l']: it runs to its end, or it halts right after a
    block read or a word write that failed. *)
Definition ends_or_halts (cfg : Config) (l : list Event) (r : Outcome unit)
    (l' : list Event) : Prop :=
  (r = Done tt /\ exists evs, l' = evs ++ l)
  \/
  (exists e ev evs,
      r = Fatal e None /\
      l' = EvFatalError e None :: ev :: evs ++ l /\
      (is_block_read ev = true \/ is_write ev = true) /\
      ~ succeeded cfg ev).

(** * Proofs *)

#[local] Arguments Z.eqb : simpl never.
#[local] Arguments Z.ltb : simpl never.
#[local] Arguments Z.geb : simpl never.
#[local] Arguments Z.leb : simpl never.
#[local] Arguments Z.quot : simpl never.
#[local] Arguments Z.mul : simpl never.
#[local] Arguments Z.add : simpl never.
#[local] Arguments Z.sub : simpl never.
#[local] Arguments Z.of_nat : simpl never.
#[local] Arguments Z.to_nat : simpl never.
#[local] Arguments count : simpl never.

(** ** Records of calls *)

Lemma grows_refl (P : Event -> Prop) (l : list Event) : grows P l l.
Proof. exists []. split; [reflexivity | constructor]. Qed.

Lemma grows_cons (P : Event -> Prop) (e : Event) (l l' : list Event) :
  P e -> grows P l l' -> grows P l (e :: l').
Proof.
  intros He [evs [-> Hall]]. exists (e :: evs). split; [reflexivity | now constructor].
Qed.

Lemma grows_trans (P : Event -> Prop) (l1 l2 l3 : list Event) :
  grows P l1 l2 -> grows P l2 l3 -> grows P l1 l3.
Proof.
  intros [e1 [-> H1]] [e2 [-> H2]]. exists (e2 ++ e1).
  split; [now rewrite app_assoc | now apply Forall_app].
Qed.

Lemma count_cons (p : Event -> bool) (e : Event) (l : list Event) :
  count p (e :: l) = ((if p e then 1 else 0) + count p l)%nat.
Proof. unfold count. simpl. now destruct (p e). Qed.

Lemma count_nil (p : Event -> bool) : count p [] = 0%nat.
Proof. reflexivity. Qed.

Lemma count_app (p : Event -> bool) (l1 l2 : list Event) :
  count p (l1 ++ l2) = (count p l1 + count p l2)%nat.
Proof. unfold count. now rewrite filter_app, length_app. Qed.

Lemma count_none (p : Event -> bool) (P : Event -> Prop) (evs : list Event) :
  (forall e, P e -> p e = false) -> Forall P evs -> count p evs = 0%nat.
Proof.
  intros Hp Hall. induction Hall as [|e evs He _ IH]; [reflexivity|].
  rewrite count_cons, (Hp e He). exact IH.
Qed.

Lemma Forall_in (P : Event -> Prop) (evs : list Event) (e : Event) :
  Forall P evs -> In e evs -> P e.
Proof. intros Hall Hin. rewrite Forall_forall in Hall. now apply Hall. Qed.

(** ** Rules for [sound] *)

Section Rules.

Variable cfg : Config.
Variable hw : Hardware.
Variable P : Event -> Prop.

Lemma sound_weaken (Q : Event -> Prop) {A} (m : M hw A) :
  (forall e, Q e -> P e) -> sound Q m -> sound P m.
Proof.
  intros HQP Hm w. destruct (Hm w) as [evs [Hlog [Hall Hres]]].
  exists evs. repeat split; auto. eapply Forall_impl; eauto.
Qed.

Lemma sound_run {A} (m : M hw A) (w : World hw) (r : Outcome A) (w' : World hw) :
  sound P m -> m w = (r, w') ->
  exists evs,
    log w' = evs ++ log w /\ Forall P evs /\
    match r with
    | Done _ => True
    | Fatal e s => In (EvFatalError e s) evs
    | HandOff a => In (EvJumpTo a) evs
    | OutOfFuel => False
    end.
Proof. intros Hm Hrun. specialize (Hm w). now rewrite Hrun in Hm. Qed.

Lemma sound_ret {A} (a : A) : sound P (ret hw a).
Proof. intro w. exists []. simpl. auto. Qed.

Lemma sound_bind {A B} (m : M hw A) (k : A -> M hw B) :
  sound P m -> (forall a, sound P (k a)) -> sound P (bind hw m k).
Proof.
  intros Hm Hk w. unfold bind.
  destruct (Hm w) as [e1 [Hlog1 [Hall1 Hres1]]].
  destruct (m w) as [[a|e s|a|] w1]; simpl in *.
  - destruct (Hk a w1) as [e2 [Hlog2 [Hall2 Hres2]]].
    exists (e2 ++ e1). rewrite Hlog2, Hlog1, app_assoc.
    split; [reflexivity|]. split; [now apply Forall_app|].
    destruct (fst (k a w1)); auto; apply in_or_app; now left.
  - exists e1. auto.
  - exists e1. auto.
  - contradiction.
Qed.

Lemma sound_emit (e : Event) : P e -> sound P (emit hw e).
Proof. intros He w. exists [e]. simpl. auto. Qed.

Lemma sound_memzero (n : Z) : sound P (memzero hw n).
Proof. intro w. exists []. simpl. auto. Qed.

Lemma sound_sdcard_buf (j : Z) : sound P (sdcard_buf hw j).
Proof. intro w. exists []. simpl. auto. Qed.

Lemma sound_sdcard_init : P EvSdcardInit -> sound P (do_sdcard_init hw).
Proof. intros He w. exists [EvSdcardInit]. simpl. auto. Qed.

Lemma sound_power_on :
  (forall r, P (EvSdPowerOn r)) -> sound P (do_sdcard_power_on hw).
Proof.
  intros He w. eexists [_]. simpl. auto.
Qed.

Lemma sound_power_off : P EvSdPowerOff -> sound P (do_sdcard_power_off hw).
Proof. intros He w. exists [EvSdPowerOff]. simpl. auto. Qed.

Lemma sound_capacity :
  (forall c, P (EvSdCapacity c)) -> sound P (do_sdcard_get_capacity_in_bytes hw).
Proof. intros He w. eexists [_]. simpl. auto. Qed.

Lemma sound_read_blocks (b n : Z) :
  (forall r, P (EvSdReadBlocks b n r)) -> sound P (do_sdcard_read_blocks hw b n).
Proof.
  intros He w. eexists [_]. simpl. auto.
Qed.

Lemma sound_load_image_header (src : Source) (magic maxsize m n : Z)
    (keys : list (list Z)) :
  (forall r, P (EvLoadImageHeader src r)) ->
  sound P (do_load_image_header hw src magic maxsize m n keys).
Proof. intros He w. eexists [_]. simpl. auto. Qed.

Lemma sound_check_image_contents (hdr : image_header hw) (skip : Z)
    (secs : list Z) (n : Z) :
  (forall r, P (EvCheckImageContents secs r)) ->
  sound P (do_check_image_contents hw hdr skip secs n).
Proof. intros He w. eexists [_]. simpl. auto. Qed.

Lemma sound_configure_option_bytes :
  (forall r, P (EvConfigureOptionBytes r)) ->
  sound P (do_flash_configure_option_bytes hw).
Proof.
  intros He w. eexists [_]. simpl. auto.
Qed.

Lemma sound_unlock_write :
  (forall r, P (EvUnlockWrite r)) -> sound P (do_flash_unlock_write hw).
Proof.
  intros He w. eexists [_]. simpl. auto.
Qed.

Lemma sound_lock_write :
  (forall r, P (EvLockWrite r)) -> sound P (do_flash_lock_write hw).
Proof.
  intros He w. eexists [_]. simpl. auto.
Qed.

Lemma sound_write_word (s o d : Z) :
  (forall r, P (EvWriteWord s o d r)) -> sound P (do_flash_write_word hw s o d).
Proof.
  intros He w. eexists [_]. simpl. auto.
Qed.

Lemma sound_ensure (r : secbool) (e : string) (s : option string) :
  P (EvFatalError e s) -> sound P (ensure cfg hw r e s).
Proof.
  intros He w. unfold ensure. destruct (r =? sectrue cfg).
  - exists []. simpl. auto.
  - exists [EvFatalError e s]. simpl. auto.
Qed.

Lemma sound_jump_to (a : Z) : P (EvJumpTo a) -> sound P (jump_to hw a).
Proof. intros He w. exists [EvJumpTo a]. simpl. auto. Qed.

Lemma sound_notify (cb : option (Z -> Z -> M hw unit)) (calls : list (Z * Z)) :
  (forall f pos len, cb = Some f -> sound P (f pos len)) ->
  sound P (notify hw cb calls).
Proof.
  intros Hcb. induction calls as [|[pos len] rest IH]; simpl.
  - apply sound_ret.
  - destruct cb as [f|]; [|exact IH].
    apply sound_bind; [now apply Hcb | intros _; exact IH].
Qed.

Lemma sound_erase_sectors (secs : list Z) (len : Z)
    (cb : option (Z -> Z -> M hw unit)) :
  (forall r, P (EvEraseSectors secs len r)) ->
  (forall f pos l, cb = Some f -> sound P (f pos l)) ->
  sound P (do_flash_erase_sectors hw secs len cb).
Proof.
  intros He Hcb w. unfold do_flash_erase_sectors.
  set (x := flash_erase_sectors hw (flash w) secs len).
  destruct (sound_notify cb (snd x) Hcb
              (mkWorld (snd (fst x)) (card w) (sram w) (log w)))
    as [evs [Hlog [Hall Hres]]].
  cbv zeta.
  destruct (notify hw cb (snd x) _) as [[u|e s|a|] w1]; simpl in *.
  - exists (EvEraseSectors secs len (fst (fst x)) :: evs). rewrite Hlog. auto.
  - exists evs. auto.
  - exists evs. auto.
  - contradiction.
Qed.

Lemma sound_for_up (body : Z -> M hw unit) (n : nat) (k : Z) :
  (forall j, k <= j < k + Z.of_nat n -> sound P (body j)) ->
  sound P (for_up hw n k body).
Proof.
  revert k. induction n as [|n IH]; intros k Hbody; simpl.
  - apply sound_ret.
  - apply sound_bind; [apply Hbody; lia|].
    intros _. apply IH. intros j Hj. apply Hbody. lia.
Qed.

End Rules.

(** ** Facts about each function of the file *)

Section Verification.

Variable cfg : Config.
Variable hw : Hardware.

Notation "x <- m ;; k" := (bind hw m (fun x => k))
  (at level 100, m at next level, right associativity).
Notation "m ;; k" := (bind hw m (fun _ => k))
  (at level 100, right associativity).

Ltac prims :=
  unfold reset_flags_reset, periph_init, clear_otg_hs_memory, display_init,
    display_clear, display_backlight, display_set_big_endian,
    set_bld_compatible_settings, progress_callback, display_printf, hal_delay.

Ltac sound_tac :=
  prims;
  repeat first
    [ apply sound_ret
    | apply sound_bind; [|intros]
    | apply sound_emit
    | apply sound_memzero
    | apply sound_sdcard_buf
    | apply sound_sdcard_init
    | apply sound_power_on; intros
    | apply sound_power_off
    | apply sound_capacity; intros
    | apply sound_read_blocks; intros
    | apply sound_load_image_header; intros
    | apply sound_check_image_contents; intros
    | apply sound_configure_option_bytes; intros
    | apply sound_unlock_write; intros
    | apply sound_lock_write; intros
    | apply sound_write_word; intros
    | apply sound_ensure
    | apply sound_jump_to
    | match goal with
      | |- sound _ (if ?b then _ else _) => destruct b
      | |- sound _ (match ?o with Some _ => _ | None => _ end) => destruct o
      end ];
  simpl; auto 10.

(** *** check_sdcard *)

Lemma check_sdcard_sound : sound detect_fp (check_sdcard cfg hw).
Proof. unfold check_sdcard. sound_tac. Qed.

Ltac crunch :=
  repeat (simpl;
          match goal with
          | |- context [if ?b then _ else _] => destruct b eqn:?
          end);
  simpl.

Lemma check_sdcard_returns (w : World hw) :
  exists c w',
    check_sdcard cfg hw w = (Done c, w') /\ flash w' = flash w.
Proof.
  unfold check_sdcard, bind, do_sdcard_power_on, do_sdcard_power_off,
    do_sdcard_get_capacity_in_bytes, do_sdcard_read_blocks, memzero,
    do_load_image_header, ret.
  crunch; eauto.
Qed.

Lemma check_sdcard_same_board (w1 w2 : World hw) :
  same_board w1 w2 ->
  fst (check_sdcard cfg hw w1) = fst (check_sdcard cfg hw w2) /\
  same_board (snd (check_sdcard cfg hw w1)) (snd (check_sdcard cfg hw w2)).
Proof.
  destruct w1 as [f1 c1 b1 l1], w2 as [f2 c2 b2 l2].
  intros [Hf [Hc Hb]]. simpl in Hf, Hc, Hb. subst f2 c2 b2.
  unfold check_sdcard, bind, do_sdcard_power_on, do_sdcard_power_off,
    do_sdcard_get_capacity_in_bytes, do_sdcard_read_blocks, memzero,
    do_load_image_header, ret, same_board.
  crunch; auto.
Qed.

Lemma poll_same_board (n : nat) (w1 w2 : World hw) :
  same_board w1 w2 -> fst (poll cfg hw n w1) = fst (poll cfg hw n w2).
Proof.
  revert w1 w2. induction n as [|n IH]; intros w1 w2 Hs; simpl.
  - now apply check_sdcard_same_board.
  - apply IH. now apply check_sdcard_same_board.
Qed.

Lemma check_sdcard_counts (w : World hw) :
  count is_delay (log (snd (check_sdcard cfg hw w))) = count is_delay (log w) /\
  count is_power_on (log (snd (check_sdcard cfg hw w))) =
    S (count is_power_on (log w)).
Proof.
  unfold check_sdcard, bind, do_sdcard_power_on, do_sdcard_power_off,
    do_sdcard_get_capacity_in_bytes, do_sdcard_read_blocks, memzero,
    do_load_image_header, ret.
  crunch; rewrite ?count_cons; simpl; auto.
Qed.

(** *** countdown *)

Lemma countdown_sound (fuel : nat) :
  forall i c0, (Z.to_nat (i + 1) < fuel)%nat ->
    sound countdown_fp (countdown cfg hw fuel i c0).
Proof.
  induction fuel as [|fuel IH]; intros i c0 Hfuel; cbn [countdown]; [lia|].
  destruct (i >=? 0) eqn:Hi; [|apply sound_ret].
  prims.
  apply sound_bind; [apply sound_emit; exact I | intros _].
  apply sound_bind; [apply sound_emit; reflexivity | intros _].
  apply sound_bind.
  - apply sound_weaken with (Q := detect_fp); [|apply check_sdcard_sound].
    intros [] H; simpl in *; auto; contradiction.
  - intros c. destruct (0 =? c).
    + apply sound_bind; [apply sound_emit; exact I | intros _; apply sound_ret].
    + apply IH. lia.
Qed.

Lemma countdown_returns (fuel : nat) :
  forall i c0 w, (Z.to_nat (i + 1) < fuel)%nat ->
    exists oc w',
      countdown cfg hw fuel i c0 w = (Done oc, w') /\ flash w' = flash w.
Proof.
  induction fuel as [|fuel IH]; intros i c0 w Hfuel; cbn [countdown]; [lia|].
  destruct (i >=? 0) eqn:Hi; [|unfold ret; eauto].
  unfold bind at 1 2 3. prims. simpl.
  match goal with
  | |- context [check_sdcard cfg hw ?w1] =>
      destruct (check_sdcard_returns w1) as [c [w2 [Hrun Hfl]]]; rewrite Hrun
  end.
  simpl in Hfl.
  destruct (0 =? c).
  - unfold bind, emit, ret. simpl. eauto.
  - destruct (IH (i - 1) c w2 ltac:(lia)) as [oc [w' [Hrec Hfl']]].
    exists oc, w'. split; [exact Hrec | congruence].
Qed.

Lemma countdown_ticks (fuel : nat) :
  forall i c0 w oc w',
    -1 <= i -> (Z.to_nat (i + 1) < fuel)%nat ->
    countdown cfg hw fuel i c0 w = (Done oc, w') ->
    (count is_delay (log w') <= count is_delay (log w) + Z.to_nat (i + 1))%nat /\
    (count is_power_on (log w') + count is_delay (log w) =
     count is_power_on (log w) + count is_delay (log w'))%nat /\
    (oc <> None ->
     count is_delay (log w') = (count is_delay (log w) + Z.to_nat (i + 1))%nat).
Proof.
  induction fuel as [|fuel IH]; intros i c0 w oc w' Hi Hfuel; cbn [countdown]; [lia|].
  destruct (i >=? 0) eqn:Hge.
  - unfold bind at 1 2 3. prims. simpl.
    match goal with
    | |- context [check_sdcard cfg hw ?w1] =>
        destruct (check_sdcard_returns w1) as [c [w2 [Hrun _]]];
        destruct (check_sdcard_counts w1) as [Hd Hp];
        rewrite Hrun in *
    end.
    simpl in Hd, Hp. rewrite ?count_cons in Hd, Hp. simpl in Hd, Hp.
    destruct (0 =? c).
    + unfold bind, emit, ret. simpl. intros Heq. inversion Heq; subst; clear Heq.
      simpl. rewrite ?count_cons. simpl.
      repeat split; try lia. intros Hne. now elim Hne.
    + intros Hrec.
      destruct (IH (i - 1) c w2 oc w' ltac:(lia) ltac:(lia) Hrec) as [H1 [H2 H3]].
      replace (Z.to_nat (i - 1 + 1)) with (Z.to_nat (i + 1) - 1)%nat in * by lia.
      assert (0 < Z.to_nat (i + 1))%nat by lia.
      repeat split; try lia. intros Hne. specialize (H3 Hne). lia.
  - unfold ret. intros Heq. inversion Heq; subst; clear Heq.
    replace (Z.to_nat (i + 1)) with 0%nat by lia.
    repeat split; lia.
Qed.

Lemma countdown_abort (fuel : nat) :
  forall i c0 w n,
    Z.of_nat n <= i -> (Z.to_nat (i + 1) < fuel)%nat ->
    fst (poll cfg hw n w) = Done 0 ->
    exists w',
      countdown cfg hw fuel i c0 w = (Done None, w') /\
      (count is_delay (log w') <= count is_delay (log w) + n + 1)%nat.
Proof.
  induction fuel as [|fuel IH]; intros i c0 w n Hn Hfuel Hpoll; cbn [countdown]; [lia|].
  destruct (i >=? 0) eqn:Hge; [|lia].
  unfold bind at 1 2 3. prims. simpl.
  match goal with
  | |- context [check_sdcard cfg hw ?w1] =>
      destruct (check_sdcard_returns w1) as [c [w2 [Hrun _]]];
      destruct (check_sdcard_counts w1) as [Hd _];
      assert (Hsame : same_board w w1) by (repeat split);
      pose proof (check_sdcard_same_board w w1 Hsame) as [Hres Hnext];
      rewrite Hrun in *
  end.
  simpl in Hd, Hres, Hnext. rewrite ?count_cons in Hd. simpl in Hd.
  destruct (0 =? c) eqn:Hc.
  - unfold bind, emit, ret. simpl. eexists. split; [reflexivity|].
    simpl. rewrite ?count_cons. simpl. lia.
  - destruct n as [|n].
    + simpl in Hpoll. rewrite Hres in Hpoll. inversion Hpoll. lia.
    + simpl in Hpoll.
      rewrite (poll_same_board n _ w2 Hnext) in Hpoll.
      destruct (IH (i - 1) c w2 n ltac:(lia) ltac:(lia) Hpoll) as [w' [Hrec Hcnt]].
      exists w'. split; [exact Hrec | lia].
Qed.


(** *** Counting loops *)

Lemma for_up_done (Q : list Event -> list Event -> Prop) (body : Z -> M hw unit) :
  (forall l, Q l l) ->
  (forall l1 l2 l3, Q l1 l2 -> Q l2 l3 -> Q l1 l3) ->
  (forall j w u w1, body j w = (Done u, w1) -> Q (log w) (log w1)) ->
  forall n k w u w',
    for_up hw n k body w = (Done u, w') -> Q (log w) (log w').
Proof.
  intros Hrefl Htrans Hbody. induction n as [|n IH]; intros k w u w'; simpl.
  - unfold ret. intros Heq. inversion Heq; subst. apply Hrefl.
  - unfold bind. destruct (body k w) as [[u1|e s|a|] w1] eqn:Hb; try discriminate.
    intros Hrest. eapply Htrans; [eapply Hbody; eassumption | eapply IH; eassumption].
Qed.

Lemma for_up_count (p : Event -> bool) (c : nat) (body : Z -> M hw unit) :
  (forall j w u w1,
      body j w = (Done u, w1) -> count p (log w1) = (count p (log w) + c)%nat) ->
  forall n k w u w',
    for_up hw n k body w = (Done u, w') ->
    count p (log w') = (count p (log w) + n * c)%nat.
Proof.
  intros Hbody. induction n as [|n IH]; intros k w u w'; simpl.
  - unfold ret. intros Heq. inversion Heq; subst. lia.
  - unfold bind. destruct (body k w) as [[u1|e s|a|] w1] eqn:Hb; try discriminate.
    intros Hrest. rewrite (IH _ _ _ _ Hrest), (Hbody _ _ _ _ Hb). lia.
Qed.

(** *** copy_blocks *)

Lemma write_word_step (i j : Z) (w : World hw) (u : unit) (w1 : World hw) :
  (d <- sdcard_buf hw j ;;
   r <- do_flash_write_word hw (FLASH_SECTOR_BOOTLOADER cfg)
          (wrap32 (i * SDCARD_BLOCK_SIZE cfg + j * 4)) d ;;
   ensure cfg hw r "flash_write_word" None) w = (Done u, w1) ->
  log w1 =
    EvWriteWord (FLASH_SECTOR_BOOTLOADER cfg)
      (wrap32 (i * SDCARD_BLOCK_SIZE cfg + j * 4)) (sram w j) (sectrue cfg)
    :: log w.
Proof.
  unfold bind, sdcard_buf, do_flash_write_word, ensure, ret. simpl.
  destruct (_ =? sectrue cfg) eqn:Hr; [|discriminate].
  apply Z.eqb_eq in Hr. intros Heq. inversion Heq; subst; clear Heq.
  simpl. now rewrite Hr.
Qed.

Lemma write_block_words_count (p : Event -> bool) (c : nat) (i : Z) :
  (forall s o d r, p (EvWriteWord s o d r) = true -> c = 1%nat) ->
  (forall s o d r, p (EvWriteWord s o d r) = false -> c = 0%nat) ->
  forall w u w',
    write_block_words cfg hw i w = (Done u, w') ->
    count p (log w') =
      (count p (log w) + Z.to_nat (Z.quot (SDCARD_BLOCK_SIZE cfg) 4) * c)%nat.
Proof.
  intros Hyes Hno w u w'. unfold write_block_words.
  apply for_up_count. clear w u w'. intros j w u w1 Hstep.
  rewrite (write_word_step _ _ _ _ _ Hstep), count_cons.
  match goal with |- context [p ?e] => destruct (p e) eqn:Hp end.
  - rewrite (Hyes _ _ _ _ Hp). lia.
  - rewrite (Hno _ _ _ _ Hp). lia.
Qed.

Lemma copy_block_step (i : Z) (w : World hw) (u : unit) (w' : World hw) :
  (r <- do_sdcard_read_blocks hw i 1 ;;
   ensure cfg hw r "sdcard_read_blocks" None ;;
   write_block_words cfg hw i) w = (Done u, w') ->
  exists w1,
    log w1 = EvSdReadBlocks i 1 (sectrue cfg) :: log w /\
    write_block_words cfg hw i w1 = (Done u, w').
Proof.
  unfold bind at 1 2. unfold do_sdcard_read_blocks, ensure, ret. simpl.
  destruct (_ =? sectrue cfg) eqn:Hr; [|discriminate].
  apply Z.eqb_eq in Hr. intros Hrun. eexists. split; [|exact Hrun].
  simpl. now rewrite Hr.
Qed.

Lemma copy_blocks_reads (c : Z) (w : World hw) (u : unit) (w' : World hw) :
  copy_blocks cfg hw c w = (Done u, w') ->
  count is_block_read (log w') =
    (count is_block_read (log w) + Z.to_nat (block_count cfg c))%nat.
Proof.
  unfold copy_blocks. intros Hrun.
  apply (for_up_count is_block_read 1) in Hrun; [lia|].
  clear. intros i w u w' Hstep.
  destruct (copy_block_step _ _ _ _ Hstep) as [w1 [Hlog Hwords]].
  rewrite (write_block_words_count is_block_read 0 i) with (w := w1) (u := u);
    [|discriminate|reflexivity|exact Hwords].
  rewrite Hlog, count_cons. simpl. lia.
Qed.

Lemma copy_blocks_writes (c : Z) (w : World hw) (u : unit) (w' : World hw) :
  copy_blocks cfg hw c w = (Done u, w') ->
  count is_write (log w') =
    (count is_write (log w) +
     Z.to_nat (block_count cfg c) * Z.to_nat (Z.quot (SDCARD_BLOCK_SIZE cfg) 4))%nat.
Proof.
  unfold copy_blocks. intros Hrun.
  apply (for_up_count is_write (Z.to_nat (Z.quot (SDCARD_BLOCK_SIZE cfg) 4)))
    in Hrun; [lia|].
  clear. intros i w u w' Hstep.
  destruct (copy_block_step _ _ _ _ Hstep) as [w1 [Hlog Hwords]].
  rewrite (write_block_words_count is_write 1 i) with (w := w1) (u := u);
    [|reflexivity|discriminate|exact Hwords].
  rewrite Hlog, count_cons. simpl. lia.
Qed.

Lemma copy_blocks_sound (P : Event -> Prop) (c : Z) :
  (forall i r, 0 <= i < block_count cfg c -> P (EvSdReadBlocks i 1 r)) ->
  (forall i j d r,
      0 <= i < block_count cfg c ->
      0 <= j < Z.quot (SDCARD_BLOCK_SIZE cfg) 4 ->
      P (EvWriteWord (FLASH_SECTOR_BOOTLOADER cfg)
                     (wrap32 (i * SDCARD_BLOCK_SIZE cfg + j * 4)) d r)) ->
  P (EvFatalError "sdcard_read_blocks" None) ->
  P (EvFatalError "flash_write_word" None) ->
  sound P (copy_blocks cfg hw c).
Proof.
  intros Hread Hwrite Hfr Hfw. unfold copy_blocks.
  apply sound_for_up. intros i Hi.
  apply sound_bind; [apply sound_read_blocks; intros; apply Hread; lia | intros r].
  apply sound_bind; [now apply sound_ensure | intros _].
  unfold write_block_words. apply sound_for_up. intros j Hj.
  apply sound_bind; [apply sound_sdcard_buf | intros d].
  apply sound_bind; [|intros r'; now apply sound_ensure].
  apply sound_write_word. intros r'. apply Hwrite; lia.
Qed.


Lemma copy_blocks_succeeded (c : Z) (w : World hw) (u : unit) (w' : World hw) :
  copy_blocks cfg hw c w = (Done u, w') ->
  grows (succeeded cfg) (log w) (log w').
Proof.
  unfold copy_blocks.
  apply (for_up_done (grows (succeeded cfg)));
    [apply grows_refl | apply grows_trans |].
  intros i w0 u0 w2 Hstep.
  destruct (copy_block_step _ _ _ _ Hstep) as [w1 [Hlog Hwords]].
  apply grows_trans with (l2 := log w1).
  - rewrite Hlog. apply grows_cons; [reflexivity | apply grows_refl].
  - revert Hwords. unfold write_block_words.
    apply (for_up_done (grows (succeeded cfg)));
      [apply grows_refl | apply grows_trans |].
    intros j w3 u3 w4 Hword. rewrite (write_word_step _ _ _ _ _ Hword).
    apply grows_cons; [reflexivity | apply grows_refl].
Qed.

(** *** erase_and_copy *)

Lemma erase_sound (P : Event -> Prop) :
  (forall r, P (EvEraseSectors (sectors cfg) 21 r)) ->
  P (EvPrintf "." []) ->
  sound P
    (do_flash_erase_sectors hw (sectors cfg)
       (Z.of_nat (List.length (sectors cfg))) (Some (progress_callback hw))).
Proof.
  intros He Hp. apply sound_erase_sectors; [exact He|].
  intros f pos l Hf. inversion Hf; subst. apply sound_emit. exact Hp.
Qed.

Lemma erase_and_copy_sound (c : Z) : sound (apply_fp cfg) (erase_and_copy cfg hw c).
Proof.
  unfold erase_and_copy. prims.
  apply sound_bind; [apply sound_emit; discriminate | intros _].
  apply sound_bind; [apply erase_sound; simpl; auto; discriminate | intros er].
  destruct (negb _).
  - sound_tac; discriminate.
  - apply sound_bind; [apply sound_emit; discriminate | intros _].
    apply sound_bind; [apply sound_unlock_write; intros; exact I | intros ur].
    apply sound_bind; [apply sound_ensure; simpl; auto | intros _].
    apply sound_bind; [apply sound_emit; discriminate | intros _].
    apply sound_bind; [apply sound_power_on; intros; exact I | intros pr].
    apply sound_bind; [apply sound_ensure; simpl; auto | intros _].
    apply sound_bind; [apply sound_memzero | intros _].
    apply sound_bind; [apply copy_blocks_sound; simpl; auto 10 | intros _].
    sound_tac; discriminate.
Qed.


(** The three ways lines 133-191 can end: before the write sequence is
    entered; inside it, on a failed block read or word write; or after the
    lock step. *)
Ltac exec :=
  cbn [emit ret memzero sdcard_buf do_sdcard_init do_sdcard_power_on
       do_sdcard_power_off do_sdcard_get_capacity_in_bytes do_sdcard_read_blocks
       do_load_image_header do_check_image_contents
       do_flash_configure_option_bytes do_flash_unlock_write do_flash_lock_write
       do_flash_write_word jump_to flash card sram log fst snd].

Lemma erase_and_copy_cases (c : Z) (w : World hw) (r : Outcome secbool)
    (w' : World hw) :
  erase_and_copy cfg hw c w = (r, w') ->
  exists evs,
    log w' = evs ++ log w /\
    (((r = Done (secfalse cfg) \/ r = Fatal "flash_unlock_write" None \/
       r = Fatal "sdcard_power_on" None) /\
      count is_lock evs = 0%nat /\ count is_write evs = 0%nat)
     \/
     ((r = Fatal "sdcard_read_blocks" None \/ r = Fatal "flash_write_word" None) /\
      count is_lock evs = 0%nat /\ In (EvUnlockWrite (sectrue cfg)) evs)
     \/
     ((r = Done (sectrue cfg) \/ r = Fatal "flash_lock_write" None) /\
      Forall (succeeded cfg) evs /\ count is_lock evs = 1%nat)).
Proof.
  pose (P0 := fun e =>
          match e with
          | EvFatalError _ _ | EvJumpTo _ => False
          | _ => is_lock e = false /\ is_write e = false /\ succeeded cfg e
          end).
  pose (P1 := fun e =>
          match e with
          | EvFatalError e s =>
              s = None /\ (e = "sdcard_read_blocks" \/ e = "flash_write_word")
          | EvJumpTo _ => False
          | _ => is_lock e = false
          end).
  unfold erase_and_copy. prims. unfold bind at 1. exec. unfold bind at 1.
  match goal with
  | |- context [do_flash_erase_sectors hw ?a ?b ?c ?w1] =>
      destruct (do_flash_erase_sectors hw a b c w1) as [[er|e s|a0|] w2] eqn:He
  end;
    destruct (sound_run _ _ _ _ _ _
                (erase_sound P0 ltac:(simpl; auto) ltac:(simpl; auto)) He)
      as [evs1 [Hl1 [Hall1 Hres1]]];
    simpl in Hl1, Hres1;
    try (exfalso; apply (Forall_in P0 _ _ Hall1) in Hres1; exact Hres1);
    try contradiction.
  assert (Hlock1 : count is_lock evs1 = 0%nat)
    by (apply (count_none _ P0); [intros []; simpl; tauto | exact Hall1]).
  assert (Hwrite1 : count is_write evs1 = 0%nat)
    by (apply (count_none _ P0); [intros []; simpl; tauto | exact Hall1]).
  assert (Hall1' : Forall (succeeded cfg) evs1).
  { eapply Forall_impl; [|exact Hall1]. intros [] H; simpl in *; tauto. }
  destruct (negb (sectrue cfg =? er)).
  { unfold bind, emit, ret. simpl. intros Heq. inversion Heq; subst; clear Heq.
    simpl. rewrite Hl1.
    eexists (_ :: evs1 ++ [_]). split; [simpl; now rewrite <- app_assoc|].
    left. rewrite !count_cons, !count_app, Hlock1, Hwrite1. simpl. auto. }
  unfold bind at 1 2. exec. unfold bind at 1.
  unfold ensure at 1.
  destruct (fst (flash_unlock_write hw (flash w2)) =? sectrue cfg) eqn:Hur.
  2:{ simpl. intros Heq. inversion Heq; subst; clear Heq. simpl. rewrite Hl1.
      eexists (_ :: _ :: _ :: evs1 ++ [_]). split; [simpl; now rewrite <- app_assoc|].
      left. rewrite !count_cons, !count_app, Hlock1, Hwrite1. simpl. auto. }
  apply Z.eqb_eq in Hur.
  exec. unfold bind at 1 2. exec. unfold bind at 1.
  unfold ensure at 1.
  destruct (fst (sdcard_power_on hw (card w2)) =? sectrue cfg) eqn:Hpr.
  2:{ simpl. intros Heq. inversion Heq; subst; clear Heq. simpl. rewrite Hl1.
      eexists (_ :: _ :: _ :: _ :: _ :: evs1 ++ [_]).
      split; [simpl; now rewrite <- app_assoc|].
      left. rewrite !count_cons, !count_app, Hlock1, Hwrite1. simpl. auto. }
  exec. unfold bind at 1. exec. unfold bind at 1.
  match goal with
  | |- context [copy_blocks cfg hw c ?w5] =>
      pose proof (copy_blocks_succeeded c w5) as Hok;
      destruct (copy_blocks cfg hw c w5) as [[u|e s|a0|] w6] eqn:Hb
  end;
    destruct (sound_run _ _ _ _ _ _
                (copy_blocks_sound P1 c ltac:(simpl; auto) ltac:(simpl; auto)
                   ltac:(simpl; auto) ltac:(simpl; auto)) Hb)
      as [evs2 [Hl2 [Hall2 Hres2]]];
    simpl in Hl2, Hres2; try contradiction.
  - destruct (Hok _ _ eq_refl) as [evs2' [Hl2' Hall2']]. simpl in Hl2'.
    rewrite Hl2 in Hl2'. apply app_inv_tail in Hl2'. subst evs2'.
    assert (Hlock2 : count is_lock evs2 = 0%nat).
    { apply (count_none _ P1); [|exact Hall2].
      intros [] H; simpl in *; auto; contradiction. }
    unfold bind at 1 2. exec.
    unfold bind at 1. unfold ensure at 1.
    destruct (fst (flash_lock_write hw (flash w6)) =? sectrue cfg) eqn:Hlr.
    + unfold bind, emit, ret. simpl. intros Heq. inversion Heq; subst; clear Heq.
      simpl. rewrite Hl2, Hl1.
      eexists (_ :: _ :: _ :: _ :: evs2 ++ _ :: _ :: _ :: _ :: evs1 ++ [_]).
      split; [simpl; rewrite <- !app_assoc; simpl; now rewrite <- app_assoc|].
      right. right. split; [now left|]. split.
      * repeat (apply Forall_cons; [exact I|]). apply Forall_app. split; [exact Hall2'|].
        repeat (apply Forall_cons; [exact I|]). apply Forall_app. split; [exact Hall1'|].
        repeat constructor.
      * rewrite !count_cons, !count_app, !count_cons, !count_app, Hlock1, Hlock2.
        reflexivity.
    + simpl. intros Heq. inversion Heq; subst; clear Heq. simpl. rewrite Hl2, Hl1.
      eexists (_ :: _ :: _ :: evs2 ++ _ :: _ :: _ :: _ :: evs1 ++ [_]).
      split; [simpl; rewrite <- !app_assoc; simpl; now rewrite <- app_assoc|].
      right. right. split; [now right|]. split.
      * repeat (apply Forall_cons; [exact I|]). apply Forall_app. split; [exact Hall2'|].
        repeat (apply Forall_cons; [exact I|]). apply Forall_app. split; [exact Hall1'|].
        repeat constructor.
      * rewrite !count_cons, !count_app, !count_cons, !count_app, Hlock1, Hlock2.
        reflexivity.
  - assert (Hlock2 : count is_lock evs2 = 0%nat).
    { apply (count_none _ P1); [|exact Hall2].
      intros [] H; simpl in *; auto; contradiction. }
    apply (Forall_in P1 _ _ Hall2) in Hres2. simpl in Hres2.
    destruct Hres2 as [-> Hwhich].
    intros Heq. inversion Heq; subst; clear Heq. rewrite Hl2, Hl1.
    eexists (evs2 ++ _ :: _ :: _ :: _ :: evs1 ++ [_]).
    split; [rewrite <- !app_assoc; simpl; now rewrite <- app_assoc|].
    right. left. split; [destruct Hwhich as [-> | ->]; auto|]. split.
    + rewrite !count_app, !count_cons, !count_app, Hlock1, Hlock2. reflexivity.
    + apply in_or_app. right. right. right. left. now rewrite Hur.
  - exfalso. apply (Forall_in P1 _ _ Hall2) in Hres2. exact Hres2.
Qed.

Lemma check_sdcard_nonzero (w : World hw) (c : Z) (w' : World hw) :
  check_sdcard cfg hw w = (Done c, w') -> c <> 0 ->
  exists cap,
    1024 * 1024 <= cap /\
    log w' =
      EvLoadImageHeader SdcardBuf (sectrue cfg)
      :: EvSdPowerOff
      :: EvSdReadBlocks 0 (Z.quot (IMAGE_HEADER_SIZE cfg) (SDCARD_BLOCK_SIZE cfg))
           (sectrue cfg)
      :: EvSdCapacity cap
      :: EvSdPowerOn (sectrue cfg)
      :: log w.
Proof.
  unfold check_sdcard, bind, do_sdcard_power_on, do_sdcard_power_off,
    do_sdcard_get_capacity_in_bytes, do_sdcard_read_blocks, memzero,
    do_load_image_header, ret.
  crunch; intros Heq Hc; inversion Heq; subst; clear Heq; try congruence.
  simpl.
  repeat match goal with
         | H : negb _ = false |- _ => apply negb_false_iff in H
         | H : (_ =? _) = true |- _ => apply Z.eqb_eq in H
         | H : (_ <? _) = false |- _ => apply Z.ltb_ge in H
         end.
  eexists. split; [eassumption|]. congruence.
Qed.

Lemma countdown_succeeded (fuel : nat) :
  forall i c0 w c w',
    countdown cfg hw fuel i c0 w = (Done (Some c), w') ->
    grows (succeeded cfg) (log w) (log w').
Proof.
  induction fuel as [|fuel IH]; intros i c0 w c w'; cbn [countdown];
    [discriminate|].
  destruct (i >=? 0).
  - unfold bind at 1 2 3. prims. exec.
    match goal with
    | |- context [check_sdcard cfg hw ?w1] =>
        destruct (check_sdcard_returns w1) as [c1 [w2 [Hrun _]]];
        pose proof (check_sdcard_nonzero w1 c1 w2 Hrun) as Hnz;
        rewrite Hrun
    end.
    destruct (0 =? c1) eqn:Hc1.
    + unfold bind, emit, ret. simpl. discriminate.
    + apply Z.eqb_neq in Hc1.
      destruct (Hnz ltac:(congruence)) as [cap [_ Hlog]]. simpl in Hlog.
      intros Hrec. apply grows_trans with (l2 := log w2); [|eapply IH; eassumption].
      rewrite Hlog. repeat (apply grows_cons; [simpl; auto|]). apply grows_refl.
  - unfold ret. intros Heq. inversion Heq; subst. apply grows_refl.
Qed.

(** *** copy_sdcard *)

Lemma fuel_ok : (Z.to_nat (10 + 1) < 12)%nat.
Proof. vm_compute. lia. Qed.

Lemma copy_sdcard_unfold (w : World hw) :
  copy_sdcard cfg hw w =
  match countdown cfg hw 12 10 0 (after_banner w) with
  | (Done None, w1) => (Done (secfalse cfg), w1)
  | (Done (Some c), w1) => erase_and_copy cfg hw c w1
  | (Fatal e s, w1) => (Fatal e s, w1)
  | (HandOff a, w1) => (HandOff a, w1)
  | (OutOfFuel, w1) => (OutOfFuel, w1)
  end.
Proof.
  unfold copy_sdcard, after_banner. prims. unfold bind at 1 2 3 4 5 6 7. exec.
  destruct (countdown cfg hw 12 10 0 _) as [[[c|]|e s|a|] w1]; reflexivity.
Qed.

Lemma copy_sdcard_sound : sound (copy_fp cfg) (copy_sdcard cfg hw).
Proof.
  unfold copy_sdcard. prims.
  do 6 (apply sound_bind; [apply sound_emit; unfold copy_fp; simpl; auto | intros _]).
  apply sound_bind.
  - apply sound_weaken with (Q := countdown_fp);
      [unfold copy_fp; auto | apply countdown_sound; exact fuel_ok].
  - intros [c|]; [|apply sound_ret].
    apply sound_weaken with (Q := apply_fp cfg);
      [unfold copy_fp; auto | apply erase_and_copy_sound].
Qed.

Lemma countdown_run (w : World hw) :
  exists oc w1 evs,
    countdown cfg hw 12 10 0 (after_banner w) = (Done oc, w1) /\
    flash w1 = flash w /\
    log w1 = evs ++ log (after_banner w) /\
    Forall countdown_fp evs.
Proof.
  destruct (countdown_returns 12 10 0 (after_banner w) fuel_ok)
    as [oc [w1 [Hrun Hfl]]].
  destruct (sound_run _ _ _ _ _ _ (countdown_sound 12 10 0 fuel_ok) Hrun)
    as [evs [Hlog [Hall _]]].
  exists oc, w1, evs. auto.
Qed.


(** ** The recovery flow *)

Lemma banner_counts (p : Event -> bool) (f : Flash hw) (c : Card hw) (b : Buf) :
  (forall fmt args, p (EvPrintf fmt args) = false) ->
  (forall v, p (EvDisplayBacklight v) = false) ->
  count p (log (after_banner (boot f c b))) = 0%nat.
Proof.
  intros Hp Hb. unfold after_banner, boot. cbn [log].
  now rewrite !count_cons, !Hp, Hb, count_nil.
Qed.

(** C2: every erase the recovery flow issues is for the fixed sector list
    of lines 136-158, and no sector of the boardloader itself is in it,
    for every sector map that places the boardloader below sector 3 and
    below every region the list names. *)
Theorem C2_erase_excludes_own_sectors
    (f : Flash hw) (c : Card hw) (b : Buf) (secs : list Z) (len : Z) (r : secbool) :
  FLASH_SECTOR_BOARDLOADER_END cfg < 3 ->
  Forall (fun s => FLASH_SECTOR_BOARDLOADER_END cfg < s) (named_regions cfg) ->
  In (EvEraseSectors secs len r) (log (snd (copy_sdcard cfg hw (boot f c b)))) ->
  secs = sectors cfg /\ forall s, own_sector cfg s -> ~ In s secs.
Proof.
  intros Hlow Hnamed Hin.
  destruct (copy_sdcard_sound (boot f c b)) as [evs [Hlog [Hall _]]].
  rewrite Hlog, app_nil_r in Hin.
  apply (Forall_in _ _ _ Hall) in Hin.
  destruct Hin as [Hin | [Hin | [Hsecs _]]]; [discriminate | contradiction |].
  subst secs. split; [reflexivity|].
  intros s [_ Hown] Hs.
  unfold named_regions in Hnamed.
  repeat match goal with
         | H : Forall _ (_ :: _) |- _ => inversion H; subst; clear H
         end.
  unfold sectors in Hs. simpl in Hs.
  repeat (destruct Hs as [Hs | Hs]; [lia|]). exact Hs.
Qed.

(** C3: if the card stops being a valid candidate at some poll of the
    countdown (poll number [n], counting from 0, returns code length 0),
    the recovery flow returns [secfalse] without polling past that tick,
    with no erase, no unlock and no word write issued and the flash as it
    was. *)
Theorem C3_abort_leaves_flash_untouched
    (f : Flash hw) (c : Card hw) (b : Buf) (n : nat) :
  (n <= 10)%nat ->
  fst (poll cfg hw n (boot f c b)) = Done 0 ->
  fst (copy_sdcard cfg hw (boot f c b)) = Done (secfalse cfg) /\
  flash (snd (copy_sdcard cfg hw (boot f c b))) = f /\
  count is_erase (log (snd (copy_sdcard cfg hw (boot f c b)))) = 0%nat /\
  count is_unlock (log (snd (copy_sdcard cfg hw (boot f c b)))) = 0%nat /\
  count is_write (log (snd (copy_sdcard cfg hw (boot f c b)))) = 0%nat /\
  (count is_delay (log (snd (copy_sdcard cfg hw (boot f c b)))) <= n + 1)%nat.
Proof.
  intros Hn Hpoll.
  destruct (countdown_run (boot f c b)) as [oc [w1 [evs [Hrun [Hfl [Hlog Hall]]]]]].
  assert (Hpoll' : fst (poll cfg hw n (after_banner (boot f c b))) = Done 0).
  { rewrite <- Hpoll. apply poll_same_board. repeat split. }
  destruct (countdown_abort 12 10 0 _ n ltac:(lia) fuel_ok Hpoll')
    as [w' [Hrun' Hcnt]].
  rewrite Hrun' in Hrun. inversion Hrun; subst oc w1; clear Hrun.
  rewrite copy_sdcard_unfold, Hrun'. cbn [fst snd].
  rewrite (banner_counts is_delay) in Hcnt by reflexivity.
  repeat split; try assumption; try lia;
    rewrite Hlog, count_app, banner_counts by reflexivity;
    rewrite (count_none _ countdown_fp) by
      (try exact Hall; intros [] H; simpl in *; auto; contradiction);
    reflexivity.
Qed.

(** C4 (amended): a failed block read or word write of the write sequence
    ends the run in the fatal-error halt with the flash unlocked and no
    lock step performed; the lock step is performed only after every block
    read and every word write succeeded. *)
Theorem C4_lock_only_after_full_copy (f : Flash hw) (c : Card hw) (b : Buf) :
  (fst (copy_sdcard cfg hw (boot f c b)) = Fatal "sdcard_read_blocks" None \/
   fst (copy_sdcard cfg hw (boot f c b)) = Fatal "flash_write_word" None ->
   count is_lock (log (snd (copy_sdcard cfg hw (boot f c b)))) = 0%nat /\
   In (EvUnlockWrite (sectrue cfg)) (log (snd (copy_sdcard cfg hw (boot f c b)))))
  /\
  (count is_lock (log (snd (copy_sdcard cfg hw (boot f c b)))) <> 0%nat ->
   Forall (succeeded cfg) (log (snd (copy_sdcard cfg hw (boot f c b)))) /\
   (fst (copy_sdcard cfg hw (boot f c b)) = Done (sectrue cfg) \/
    fst (copy_sdcard cfg hw (boot f c b)) = Fatal "flash_lock_write" None)).
Proof.
  destruct (countdown_run (boot f c b)) as [oc [w1 [evs [Hrun [Hfl [Hlog Hall]]]]]].
  assert (Hlock0 : count is_lock (log w1) = 0%nat).
  { rewrite Hlog, count_app, banner_counts by reflexivity.
    rewrite (count_none _ countdown_fp);
      [reflexivity | intros [] H; simpl in *; auto; contradiction | exact Hall]. }
  rewrite copy_sdcard_unfold, Hrun.
  destruct oc as [c0|]; cbn [fst snd].
  2:{ split; [intros [H | H]; discriminate | intros H; now elim H]. }
  destruct (erase_and_copy cfg hw c0 w1) as [r w'] eqn:Hec. cbn [fst snd].
  destruct (erase_and_copy_cases _ _ _ _ Hec) as [evs2 [Hlog2 Hcases]].
  assert (Hfull : grows (succeeded cfg) [] (log w1)).
  { apply grows_trans with (l2 := log (after_banner (boot f c b))).
    - unfold after_banner, boot. cbn [log].
      repeat (apply grows_cons; [exact I|]). apply grows_refl.
    - eapply countdown_succeeded. exact Hrun. }
  destruct Hfull as [evs1 [Hlog1 Hall1]]. rewrite app_nil_r in Hlog1.
  rewrite Hlog2, count_app, Hlock0.
  destruct Hcases as [[Hr [Hl _]] | [[Hr [Hl Hin]] | [Hr [Hok Hl]]]].
  - split.
    + intros [H | H]; destruct Hr as [Hr | [Hr | Hr]]; congruence.
    + rewrite Hl. intros H; now elim H.
  - split.
    + intros _. split; [now rewrite Hl | apply in_or_app; now left].
    + rewrite Hl. intros H; now elim H.
  - split.
    + intros [H | H]; destruct Hr as [Hr | Hr]; congruence.
    + intros _. split; [|exact Hr].
      apply Forall_app. split; [exact Hok | now rewrite Hlog1].
Qed.

(** C6: whenever the recovery flow gets as far as erasing, its countdown
    has waited eleven times one second (ticks 10 down to 0), polling the
    card once per tick. *)
Theorem C6_countdown_runs_eleven_ticks
    (f : Flash hw) (c : Card hw) (b : Buf) (e : Event) :
  In e (log (snd (copy_sdcard cfg hw (boot f c b)))) ->
  is_erase e = true ->
  count is_delay (log (snd (copy_sdcard cfg hw (boot f c b)))) = 11%nat /\
  Forall (fun e => is_delay e = true -> e = EvDelay 1000)
         (log (snd (copy_sdcard cfg hw (boot f c b)))) /\
  (11 <= count is_power_on (log (snd (copy_sdcard cfg hw (boot f c b)))))%nat.
Proof.
  intros Hin He.
  destruct (copy_sdcard_sound (boot f c b)) as [evs0 [Hlog0 [Hall0 _]]].
  rewrite app_nil_r in Hlog0.
  assert (Hms : Forall (fun e => is_delay e = true -> e = EvDelay 1000)
                  (log (snd (copy_sdcard cfg hw (boot f c b))))).
  { rewrite Hlog0. eapply Forall_impl; [|exact Hall0].
    intros e0 Hfp Hd. destruct e0; try discriminate Hd.
    destruct Hfp as [H | [H | H]]; [discriminate H | | contradiction H].
    simpl in H. now rewrite H. }
  revert Hin Hms. clear evs0 Hlog0 Hall0.
  destruct (countdown_run (boot f c b)) as [oc [w1 [evs [Hrun [Hfl [Hlog Hall]]]]]].
  rewrite copy_sdcard_unfold, Hrun.
  destruct oc as [c0|]; cbn [fst snd].
  - intros _ Hms.
    destruct (countdown_ticks 12 10 0 _ _ _ ltac:(lia) fuel_ok Hrun)
      as [_ [Hpo Hd]].
    specialize (Hd ltac:(discriminate)).
    rewrite (banner_counts is_delay) in Hd, Hpo by reflexivity.
    rewrite (banner_counts is_power_on) in Hpo by reflexivity.
    replace (Z.to_nat (10 + 1)) with 11%nat in Hd by (vm_compute; reflexivity).
    destruct (erase_and_copy_sound c0 w1) as [evs2 [Hlog2 [Hall2 _]]].
    rewrite Hlog2, !count_app.
    rewrite (count_none is_delay (apply_fp cfg) evs2);
      [| intros [] H; simpl in *; auto; contradiction | exact Hall2].
    repeat split; [lia | now rewrite <- Hlog2 | lia].
  - intros Hin _. exfalso. rewrite Hlog in Hin.
    apply in_app_or in Hin. destruct Hin as [Hin | Hin].
    + apply (Forall_in _ _ _ Hall) in Hin.
      destruct e; simpl in *; try discriminate; contradiction.
    + unfold after_banner, boot in Hin. cbn [log] in Hin.
      repeat (destruct Hin as [Hin | Hin]; [subst e; discriminate|]). exact Hin.
Qed.


(** ** Detection *)

(** C5 (amended): detection runs the header-sized prefix through the
    image-header loader only; the content checker is never called from
    it.  A nonzero code length is reported only after the block read and
    the header check both succeeded. *)
Theorem C5_detection_checks_header_only (f : Flash hw) (c : Card hw) (b : Buf) :
  count is_check_contents (log (snd (check_sdcard cfg hw (boot f c b)))) = 0%nat /\
  (exists n, fst (check_sdcard cfg hw (boot f c b)) = Done n) /\
  (forall n,
      fst (check_sdcard cfg hw (boot f c b)) = Done n -> n <> 0 ->
      In (EvSdReadBlocks 0
            (Z.quot (IMAGE_HEADER_SIZE cfg) (SDCARD_BLOCK_SIZE cfg)) (sectrue cfg))
         (log (snd (check_sdcard cfg hw (boot f c b)))) /\
      In (EvLoadImageHeader SdcardBuf (sectrue cfg))
         (log (snd (check_sdcard cfg hw (boot f c b))))).
Proof.
  destruct (check_sdcard_returns (boot f c b)) as [n [w' [Hrun _]]].
  destruct (check_sdcard_sound (boot f c b)) as [evs [Hlog [Hall _]]].
  rewrite app_nil_r in Hlog.
  split; [|split].
  - rewrite Hlog. apply (count_none _ detect_fp); [|exact Hall].
    intros [] H; simpl in *; auto; contradiction.
  - exists n. now rewrite Hrun.
  - rewrite Hrun. cbn [fst snd]. intros n' Heq Hnz. inversion Heq; subst n'.
    destruct (check_sdcard_nonzero _ _ _ Hrun Hnz) as [cap [_ Hl]].
    rewrite Hl. simpl. auto.
Qed.

(** C9: a card that reports less than 1 MiB is never a candidate, and
    once power-on succeeded the media is powered off exactly once, after
    the power-on and before detection returns, whichever way it ends. *)
Theorem C9_small_card_rejected_and_powered_off
    (f : Flash hw) (c : Card hw) (b : Buf) :
  (sdcard_get_capacity_in_bytes hw (snd (sdcard_power_on hw c)) < 1024 * 1024 ->
   fst (check_sdcard cfg hw (boot f c b)) = Done 0)
  /\
  (fst (sdcard_power_on hw c) = sectrue cfg ->
   exists n later,
     fst (check_sdcard cfg hw (boot f c b)) = Done n /\
     log (snd (check_sdcard cfg hw (boot f c b))) =
       later ++ [EvSdPowerOn (sectrue cfg)] /\
     count is_power_off later = 1%nat)
  /\
  (fst (sdcard_power_on hw c) <> sectrue cfg ->
   fst (check_sdcard cfg hw (boot f c b)) = Done 0 /\
   count is_power_off (log (snd (check_sdcard cfg hw (boot f c b)))) = 0%nat).
Proof.
  unfold check_sdcard, bind, do_sdcard_power_on, do_sdcard_power_off,
    do_sdcard_get_capacity_in_bytes, do_sdcard_read_blocks, memzero,
    do_load_image_header, ret, boot.
  cbn [flash card sram log fst snd].
  destruct (sectrue cfg =? fst (sdcard_power_on hw c)) eqn:Hon; cbn [negb].
  - apply Z.eqb_eq in Hon.
    destruct (_ <? 1024 * 1024) eqn:Hcap; cbn [flash card sram log fst snd] in *.
    + split; [reflexivity|]. split; [|congruence].
      intros _. eexists. eexists [EvSdPowerOff; _].
      rewrite <- Hon. repeat split.
    + apply Z.ltb_ge in Hcap. split; [lia|]. split; [|congruence].
      intros _. rewrite <- Hon.
      repeat match goal with
             | |- context [if ?t then _ else _] =>
                 destruct t; cbn [flash card sram log fst snd]
             end.
      * eexists. eexists [_; EvSdPowerOff; _; _]. repeat split.
      * eexists. eexists [_; EvSdPowerOff; _; _]. repeat split.
      * eexists. eexists [EvSdPowerOff; _; _]. repeat split.
  - apply Z.eqb_neq in Hon. cbn [fst snd log].
    split; [reflexivity|]. split; [congruence|].
    intros _. split; [reflexivity|]. now rewrite count_cons, count_nil.
Qed.

(** ** The block loop *)

Lemma block_count_floor (c : Z) :
  0 < SDCARD_BLOCK_SIZE cfg ->
  0 <= IMAGE_HEADER_SIZE cfg + c < 2 ^ 32 ->
  block_count cfg c = (IMAGE_HEADER_SIZE cfg + c) / SDCARD_BLOCK_SIZE cfg.
Proof.
  intros HB Hrange. unfold block_count, wrap32.
  rewrite Z.mod_small by exact Hrange.
  apply Z.quot_div_nonneg; lia.
Qed.

Lemma word_offset_in_block (n i j B : Z) :
  0 < B -> 0 <= n * B < 2 ^ 32 ->
  0 <= i < n -> 0 <= j < Z.quot B 4 ->
  0 <= wrap32 (i * B + j * 4) < n * B.
Proof.
  intros HB Hn Hi Hj.
  rewrite Z.quot_div_nonneg in Hj by lia.
  assert (H4 : 4 * (B / 4) <= B) by (apply Z.mul_div_le; lia).
  assert (Hlt : 0 <= i * B + j * 4 < n * B) by nia.
  unfold wrap32. rewrite Z.mod_small; lia.
Qed.

Lemma word_offset_exact (n i j B : Z) :
  0 < B -> 0 <= n * B < 2 ^ 32 ->
  0 <= i < n -> 0 <= j < Z.quot B 4 ->
  wrap32 (i * B + j * 4) = i * B + 4 * j.
Proof.
  intros HB Hn Hi Hj.
  rewrite Z.quot_div_nonneg in Hj by lia.
  assert (H4 : 4 * (B / 4) <= B) by (apply Z.mul_div_le; lia).
  unfold wrap32. rewrite Z.mod_small; nia.
Qed.

Lemma for_up_ends_or_halts (body : Z -> M hw unit) :
  (forall j w,
      ends_or_halts cfg (log w) (fst (body j w)) (log (snd (body j w)))) ->
  forall n k w,
    ends_or_halts cfg (log w) (fst (for_up hw n k body w))
                  (log (snd (for_up hw n k body w))).
Proof.
  intros Hbody. induction n as [|n IH]; intros k w; cbn [for_up].
  - left. split; [reflexivity|]. now exists [].
  - unfold bind. specialize (Hbody k w).
    destruct (body k w) as [[[]|e s|a|] w1] eqn:Hb; cbn [fst snd] in *.
    + destruct Hbody as [[_ [evs1 Hl1]] | [e [ev [evs [He _]]]]];
        [|discriminate He].
      specialize (IH (k + 1) w1). rewrite Hl1 in IH.
      destruct IH as [[Hr [evs2 Hl2]] | [e [ev [evs2 [Hr [Hl2 Hbad]]]]]].
      * left. split; [exact Hr|]. exists (evs2 ++ evs1).
        now rewrite Hl2, app_assoc.
      * right. exists e, ev, (evs2 ++ evs1). split; [exact Hr|].
        split; [|exact Hbad]. now rewrite Hl2, <- app_assoc.
    + right. destruct Hbody as [[Hr _] | Hhalt]; [discriminate Hr | exact Hhalt].
    + destruct Hbody as [[Hr _] | [e [ev [evs [He _]]]]]; discriminate.
    + destruct Hbody as [[Hr _] | [e [ev [evs [He _]]]]]; discriminate.
Qed.

Lemma write_block_words_ends_or_halts (i : Z) (w : World hw) :
  ends_or_halts cfg (log w) (fst (write_block_words cfg hw i w))
                (log (snd (write_block_words cfg hw i w))).
Proof.
  unfold write_block_words. apply for_up_ends_or_halts. clear w.
  intros j w. unfold bind, sdcard_buf, do_flash_write_word, ensure, ret.
  cbn [fst snd log].
  match goal with
  | |- context [if ?t then _ else _] => destruct t eqn:Hr
  end; cbn [fst snd log].
  - left. split; [reflexivity|]. eexists [_]. reflexivity.
  - right. apply Z.eqb_neq in Hr.
    exists "flash_write_word". eexists. exists [].
    split; [reflexivity|]. split; [reflexivity|].
    split; [right; reflexivity | exact Hr].
Qed.

Lemma copy_blocks_ends_or_halts (c : Z) (w : World hw) :
  ends_or_halts cfg (log w) (fst (copy_blocks cfg hw c w))
                (log (snd (copy_blocks cfg hw c w))).
Proof.
  unfold copy_blocks. apply for_up_ends_or_halts. clear w.
  intros i w.
  match goal with
  | |- ends_or_halts _ _ (fst ?m) _ => destruct m as [o w'] eqn:Hrun
  end.
  cbn [fst snd]. revert Hrun.
  unfold bind at 1 2. unfold do_sdcard_read_blocks, ensure, ret.
  cbn [fst snd log].
  match goal with
  | |- context [if ?t then _ else _] => destruct t eqn:Hr
  end; cbn [fst snd log].
  - match goal with
    | |- context [write_block_words cfg hw i ?w1] =>
        pose proof (write_block_words_ends_or_halts i w1) as Hw
    end.
    intros Hrun. rewrite Hrun in Hw. cbn [fst snd log] in Hw.
    destruct Hw as [[Hd [evs Hl]] | [e [ev [evs [Hf [Hl Hbad]]]]]].
    + left. split; [exact Hd|]. eexists (evs ++ [_]).
      rewrite Hl, <- app_assoc. reflexivity.
    + right. exists e, ev. eexists (evs ++ [_]).
      split; [exact Hf|]. split; [|exact Hbad].
      rewrite Hl, <- app_assoc. reflexivity.
  - intros Hrun. inversion Hrun; subst; clear Hrun. cbn [log].
    right. apply Z.eqb_neq in Hr.
    exists "sdcard_read_blocks". eexists. exists [].
    split; [reflexivity|]. split; [reflexivity|].
    split; [left; reflexivity | exact Hr].
Qed.

Lemma write_words_trace (i : Z) (n : nat) :
  forall k w u w',
    for_up hw n k
      (fun j =>
         d <- sdcard_buf hw j ;;
         r <- do_flash_write_word hw (FLASH_SECTOR_BOOTLOADER cfg)
                (wrap32 (i * SDCARD_BLOCK_SIZE cfg + j * 4)) d ;;
         ensure cfg hw r "flash_write_word" None) w = (Done u, w') ->
    log w' =
      rev (map (fun t =>
                  EvWriteWord (FLASH_SECTOR_BOOTLOADER cfg)
                    (wrap32 (i * SDCARD_BLOCK_SIZE cfg + (k + Z.of_nat t) * 4))
                    (sram w (k + Z.of_nat t)) (sectrue cfg))
               (seq 0 n)) ++ log w /\
    card w' = card w /\ sram w' = sram w.
Proof.
  induction n as [|n IH]; intros k w u w'; cbn [for_up].
  - unfold ret. intros Heq. inversion Heq; subst. now split.
  - unfold bind at 1.
    match goal with
    | |- context [match ?m w with _ => _ end] =>
        destruct (m w) as [[u1|e s|a|] w1] eqn:Hb
    end; try discriminate.
    intros Hrest. destruct (IH _ _ _ _ Hrest) as [Hl [Hc Hs]].
    pose proof (write_word_step _ _ _ _ _ Hb) as Hl1.
    assert (Hsame : card w1 = card w /\ sram w1 = sram w).
    { revert Hb. unfold bind, sdcard_buf, do_flash_write_word, ensure, ret.
      cbn [fst snd].
      match goal with
      | |- context [if ?t then _ else _] => destruct t
      end; [|discriminate].
      intros Heq. inversion Heq; subst. now split. }
    destruct Hsame as [Hc1 Hs1].
    split; [|split; congruence].
    rewrite Hl, Hl1, Hs1. cbn [seq map rev]. rewrite Z.add_0_r, <- app_assoc.
    cbn [app]. f_equal.
    rewrite <- seq_shift, map_map. f_equal. apply map_ext. intros t.
    replace (k + 1 + Z.of_nat t) with (k + Z.of_nat (S t)) by lia. reflexivity.
Qed.

Lemma copy_blocks_trace (N : Z) :
  0 < SDCARD_BLOCK_SIZE cfg ->
  0 <= N * SDCARD_BLOCK_SIZE cfg < 2 ^ 32 ->
  forall n k w u w',
    0 <= k -> k + Z.of_nat n <= N ->
    for_up hw n k
      (fun i =>
         r <- do_sdcard_read_blocks hw i 1 ;;
         ensure cfg hw r "sdcard_read_blocks" None ;;
         write_block_words cfg hw i) w = (Done u, w') ->
    log w' = rev (copied_blocks cfg hw n k (card w) (sram w)) ++ log w.
Proof.
  intros HB HN. induction n as [|n IH]; intros k w u w' Hk Hkn; cbn [for_up].
  - unfold ret. intros Heq. inversion Heq; subst. reflexivity.
  - unfold bind at 1.
    match goal with
    | |- context [match ?m w with _ => _ end] =>
        destruct (m w) as [[u1|e s|a|] w1] eqn:Hb
    end; try discriminate.
    intros Hrest.
    rewrite (IH (k + 1) w1 u w' ltac:(lia) ltac:(lia) Hrest). clear IH Hrest.
    revert Hb. unfold bind at 1 2. unfold do_sdcard_read_blocks, ensure, ret.
    cbn [fst snd].
    match goal with
    | |- context [if ?t then _ else _] => destruct t eqn:Hr
    end; [|discriminate].
    apply Z.eqb_eq in Hr. unfold write_block_words. intros Hwords.
    destruct (write_words_trace _ _ _ _ _ _ Hwords) as [Hl [Hc Hs]].
    cbn [log card sram] in Hl, Hc, Hs.
    rewrite Hl, Hc, Hs, Hr. cbn [copied_blocks rev].
    rewrite rev_app_distr, <- !app_assoc. cbn [app]. f_equal. f_equal.
    unfold block_writes. rewrite Z.quot_div_nonneg by lia. f_equal.
    apply map_ext_in. intros t Ht. apply in_seq in Ht.
    rewrite Z.add_0_l.
    assert (Ht' : 0 <= Z.of_nat t < Z.quot (SDCARD_BLOCK_SIZE cfg) 4).
    { rewrite Z.quot_div_nonneg by lia.
      assert (0 <= SDCARD_BLOCK_SIZE cfg / 4) by (apply Z.div_pos; lia). lia. }
    rewrite (word_offset_exact N k (Z.of_nat t) _ HB HN ltac:(lia) Ht').
    reflexivity.
Qed.

(** C10: the block loop copies exactly floor((IMAGE_HEADER_SIZE + codelen) /
    SDCARD_BLOCK_SIZE) blocks.  It stops short of that only by halting
    right after a block read or a word write that failed.  When it runs to
    its end it has read that many blocks, one at a time and in order from
    block 0, and has written each block, word by word as it was read, at
    the block's own place in the bootloader sector, and has done nothing
    else.  Every word it writes, on any run, lies below that many blocks,
    so the bytes of a trailing partial block are never written. *)
Theorem C10_block_loop_drops_partial_block (codelen0 : Z) (w : World hw) :
  0 < SDCARD_BLOCK_SIZE cfg ->
  0 <= IMAGE_HEADER_SIZE cfg + codelen0 < 2 ^ 32 ->
  block_count cfg codelen0 =
    (IMAGE_HEADER_SIZE cfg + codelen0) / SDCARD_BLOCK_SIZE cfg
  /\
  grows (blocks_fp cfg (block_count cfg codelen0))
        (log w) (log (snd (copy_blocks cfg hw codelen0 w)))
  /\
  (forall u,
      fst (copy_blocks cfg hw codelen0 w) = Done u ->
      count is_block_read (log (snd (copy_blocks cfg hw codelen0 w))) =
        (count is_block_read (log w) + Z.to_nat (block_count cfg codelen0))%nat /\
      count is_write (log (snd (copy_blocks cfg hw codelen0 w))) =
        (count is_write (log w) +
         Z.to_nat (block_count cfg codelen0) *
         Z.to_nat (Z.quot (SDCARD_BLOCK_SIZE cfg) 4))%nat)
  /\
  ((IMAGE_HEADER_SIZE cfg + codelen0) mod SDCARD_BLOCK_SIZE cfg <> 0 ->
   block_count cfg codelen0 * SDCARD_BLOCK_SIZE cfg <
     IMAGE_HEADER_SIZE cfg + codelen0)
  /\
  ends_or_halts cfg (log w) (fst (copy_blocks cfg hw codelen0 w))
                (log (snd (copy_blocks cfg hw codelen0 w)))
  /\
  (forall u,
      fst (copy_blocks cfg hw codelen0 w) = Done u ->
      log (snd (copy_blocks cfg hw codelen0 w)) =
        rev (copied_blocks cfg hw (Z.to_nat (block_count cfg codelen0)) 0
               (card w) (sram w))
        ++ log w).
Proof.
  intros HB Hrange.
  pose proof (block_count_floor codelen0 HB Hrange) as Hfloor.
  assert (Hle : block_count cfg codelen0 * SDCARD_BLOCK_SIZE cfg <=
                IMAGE_HEADER_SIZE cfg + codelen0).
  { rewrite Hfloor, Z.mul_comm. apply Z.mul_div_le. exact HB. }
  assert (Hge : 0 <= block_count cfg codelen0).
  { rewrite Hfloor. apply Z.div_pos; lia. }
  split; [exact Hfloor|]. split; [|split; [|split; [|split]]].
  - assert (Hs : sound (blocks_fp cfg (block_count cfg codelen0))
                   (copy_blocks cfg hw codelen0)).
    { apply copy_blocks_sound; simpl; auto.
      intros i j d r Hi Hj. split; [reflexivity|].
      apply word_offset_in_block; try assumption. nia. }
    destruct (Hs w) as [evs [Hlog [Hall _]]]. exists evs. auto.
  - intros u Hdone.
    destruct (copy_blocks cfg hw codelen0 w) as [r w'] eqn:Hrun.
    cbn [fst snd] in *. subst r.
    split; [eapply copy_blocks_reads | eapply copy_blocks_writes]; eassumption.
  - intros Hrem.
    rewrite Hfloor.
    pose proof (Z.div_mod (IMAGE_HEADER_SIZE cfg + codelen0)
                  (SDCARD_BLOCK_SIZE cfg) ltac:(lia)) as Hdm.
    pose proof (Z.mod_pos_bound (IMAGE_HEADER_SIZE cfg + codelen0)
                  (SDCARD_BLOCK_SIZE cfg) HB) as Hmb.
    nia.
  - apply copy_blocks_ends_or_halts.
  - intros u Hdone.
    destruct (copy_blocks cfg hw codelen0 w) as [r w'] eqn:Hrun.
    cbn [fst snd] in *. subst r. revert Hrun. unfold copy_blocks.
    apply (copy_blocks_trace (block_count cfg codelen0)); try assumption; lia.
Qed.


(** ** main *)

Lemma notify_none (calls : list (Z * Z)) (w : World hw) :
  notify hw None calls w = (Done tt, w).
Proof. induction calls as [|[pos len] rest IH]; simpl; [reflexivity | exact IH]. Qed.

Lemma erase_none (secs : list Z) (len : Z) (w : World hw) :
  do_flash_erase_sectors hw secs len None w =
  (Done (fst (fst (flash_erase_sectors hw (flash w) secs len))),
   mkWorld (snd (fst (flash_erase_sectors hw (flash w) secs len))) (card w) (sram w)
     (EvEraseSectors secs len (fst (fst (flash_erase_sectors hw (flash w) secs len)))
      :: log w)).
Proof. unfold do_flash_erase_sectors. cbv zeta. now rewrite notify_none. Qed.

(** The ways [main] can end. *)
Lemma main_cases (f : Flash hw) (c : Card hw) (b : Buf) (r : Outcome Z)
    (w' : World hw) :
  main cfg hw (boot f c b) = (r, w') ->
  (fst (flash_configure_option_bytes hw f) <> sectrue cfg /\
   r = Done 2 /\
   exists x,
     log w' =
       [EvEraseSectors (STORAGE_SECTORS cfg) (STORAGE_SECTORS_COUNT cfg) x;
        EvConfigureOptionBytes (fst (flash_configure_option_bytes hw f));
        EvPeriphInit; EvResetFlags])
  \/
  (fst (flash_configure_option_bytes hw f) = sectrue cfg /\
   Forall (prelude_fp cfg) (log w') /\
   (r = Done 0 \/ r = Done 3 \/ exists e, r = Fatal e None))
  \/
  (fst (flash_configure_option_bytes hw f) = sectrue cfg /\
   exists pre,
     Forall (prelude_fp cfg) pre /\
     ((exists hr,
          hr <> sectrue cfg /\
          r = Fatal "load_image_header" (Some "invalid bootloader header") /\
          log w' =
            EvFatalError "load_image_header" (Some "invalid bootloader header")
            :: EvLoadImageHeader (FlashAt (BOOTLOADER_START cfg)) hr :: pre)
      \/
      (exists cr,
          cr <> sectrue cfg /\
          r = Fatal "check_image_contents" (Some "invalid bootloader hash") /\
          log w' =
            EvFatalError "check_image_contents" (Some "invalid bootloader hash")
            :: EvCheckImageContents [FLASH_SECTOR_BOOTLOADER cfg] cr
            :: EvLoadImageHeader (FlashAt (BOOTLOADER_START cfg)) (sectrue cfg)
            :: pre)
      \/
      (r = HandOff (BOOTLOADER_START cfg + IMAGE_HEADER_SIZE cfg) /\
       log w' =
         EvJumpTo (BOOTLOADER_START cfg + IMAGE_HEADER_SIZE cfg)
         :: EvDisplaySetBigEndian
         :: EvCheckImageContents [FLASH_SECTOR_BOOTLOADER cfg] (sectrue cfg)
         :: EvLoadImageHeader (FlashAt (BOOTLOADER_START cfg)) (sectrue cfg)
         :: pre))).
Proof.
  unfold main, boot. prims. unfold bind at 1 2 3. exec.
  destruct (sectrue cfg =? fst (flash_configure_option_bytes hw f)) eqn:Hob;
    cbn [negb].
  2:{ apply Z.eqb_neq in Hob. unfold bind at 1. rewrite erase_none. exec.
      intros Heq. inversion Heq; subst; clear Heq. left.
      split; [congruence|]. split; [reflexivity|]. eexists. reflexivity. }
  apply Z.eqb_eq in Hob. symmetry in Hob.
  unfold bind at 1 2 3 4 5. exec.
  match goal with
  | |- context [check_sdcard cfg hw ?w1] =>
      destruct (check_sdcard_returns w1) as [found [w2 [Hrun _]]];
      destruct (sound_run _ _ _ _ _ _ check_sdcard_sound Hrun)
        as [evs1 [Hl1 [Hall1 _]]];
      rewrite Hrun
  end.
  cbn [log] in Hl1.
  assert (Hpre : Forall (prelude_fp cfg) (log w2)).
  { rewrite Hl1. apply Forall_app. split.
    - eapply Forall_impl; [|exact Hall1].
      intros [] H; simpl in *; unfold copy_fp; simpl; auto; contradiction.
    - repeat constructor. }
  destruct (negb (found =? 0)).
  - unfold bind at 1.
    destruct (copy_sdcard cfg hw w2) as [[cr|e s|a|] w3] eqn:Hc;
      destruct (sound_run _ _ _ _ _ _ copy_sdcard_sound Hc)
        as [evs2 [Hl2 [Hall2 Hres2]]];
      try contradiction;
      assert (Hpre3 : Forall (prelude_fp cfg) (log w3))
        by (rewrite Hl2; apply Forall_app; split; [|exact Hpre];
            eapply Forall_impl; [|exact Hall2];
            intros [] H; simpl; auto;
            destruct H as [H | [H | H]]; try discriminate; contradiction).
    + unfold ret. intros Heq. inversion Heq; subst; clear Heq.
      right. left. split; [exact Hob|]. split; [exact Hpre3|].
      destruct (cr =? sectrue cfg); auto.
    + intros Heq. inversion Heq; subst; clear Heq.
      right. left. split; [exact Hob|]. split; [exact Hpre3|].
      apply (Forall_in _ _ _ Hall2) in Hres2.
      destruct Hres2 as [H | [H | [-> _]]];
        [discriminate | contradiction | eauto].
    + exfalso. apply (Forall_in _ _ _ Hall2) in Hres2.
      destruct Hres2 as [H | [H | H]]; [discriminate | contradiction..].
  - unfold bind at 1 2. exec. unfold ensure at 1.
    match goal with
    | |- context [if ?t then _ else _] => destruct t eqn:Hhr
    end.
    2:{ apply Z.eqb_neq in Hhr. intros Heq. inversion Heq; subst; clear Heq.
        right. right. split; [exact Hob|]. exists (log w2).
        split; [exact Hpre|]. left. eexists. split; [exact Hhr|]. split; reflexivity. }
    apply Z.eqb_eq in Hhr. exec. unfold bind at 1 2. exec. unfold ensure at 1.
    match goal with
    | |- context [if ?t then _ else _] => destruct t eqn:Hcr
    end.
    2:{ apply Z.eqb_neq in Hcr. intros Heq. inversion Heq; subst; clear Heq.
        right. right. split; [exact Hob|]. exists (log w2).
        split; [exact Hpre|]. right. left. eexists. split; [exact Hcr|].
        cbn [log]. rewrite Hhr. split; reflexivity. }
    apply Z.eqb_eq in Hcr. exec. unfold bind at 1 2. exec.
    intros Heq. inversion Heq; subst; clear Heq.
    right. right. split; [exact Hob|]. exists (log w2).
    split; [exact Hpre|]. right. right. cbn [log]. rewrite Hhr, Hcr.
    split; reflexivity.
Qed.


Lemma prelude_no_jump (l : list Event) :
  Forall (prelude_fp cfg) l -> count is_jump l = 0%nat.
Proof.
  apply count_none. intros [] H; simpl in *; auto.
  destruct H as [H | [H | H]]; [discriminate | contradiction..].
Qed.

Lemma prelude_no_resident_header (l : list Event) (a r : Z) :
  Forall (prelude_fp cfg) l -> ~ In (EvLoadImageHeader (FlashAt a) r) l.
Proof.
  intros Hall Hin. apply (Forall_in _ _ _ Hall) in Hin.
  destruct Hin as [H | [H | H]]; [discriminate.. | contradiction].
Qed.

Lemma prelude_no_check_contents (l : list Event) (secs : list Z) (r : Z) :
  Forall (prelude_fp cfg) l -> ~ In (EvCheckImageContents secs r) l.
Proof.
  intros Hall Hin. apply (Forall_in _ _ _ Hall) in Hin.
  destruct Hin as [H | [H | H]]; [discriminate | contradiction..].
Qed.

(** C1: [main] hands off to the bootloader exactly when, during the run,
    [load_image_header] on the bootloader flash region and
    [check_image_contents] on the bootloader sector both returned
    [sectrue]; a hand-off is recorded exactly when [main] ends in one; and
    a header that passes with contents that do not ends in the fatal halt
    with no hand-off. *)
Theorem C1_handoff_iff_header_and_contents_verified
    (f : Flash hw) (c : Card hw) (b : Buf) :
  ((exists a, fst (main cfg hw (boot f c b)) = HandOff a) <->
   In (EvLoadImageHeader (FlashAt (BOOTLOADER_START cfg)) (sectrue cfg))
      (log (snd (main cfg hw (boot f c b)))) /\
   In (EvCheckImageContents [FLASH_SECTOR_BOOTLOADER cfg] (sectrue cfg))
      (log (snd (main cfg hw (boot f c b)))))
  /\
  ((exists a, fst (main cfg hw (boot f c b)) = HandOff a) <->
   count is_jump (log (snd (main cfg hw (boot f c b)))) <> 0%nat)
  /\
  (In (EvLoadImageHeader (FlashAt (BOOTLOADER_START cfg)) (sectrue cfg))
      (log (snd (main cfg hw (boot f c b)))) ->
   ~ In (EvCheckImageContents [FLASH_SECTOR_BOOTLOADER cfg] (sectrue cfg))
        (log (snd (main cfg hw (boot f c b)))) ->
   fst (main cfg hw (boot f c b)) =
     Fatal "check_image_contents" (Some "invalid bootloader hash") /\
   count is_jump (log (snd (main cfg hw (boot f c b)))) = 0%nat).
Proof.
  destruct (main cfg hw (boot f c b)) as [r w'] eqn:Hrun. cbn [fst snd].
  destruct (main_cases _ _ _ _ _ Hrun)
    as [[Hob [-> [x Hlog]]]
       | [[Hob [Hpre Hr]]
         | [Hob [pre [Hpre [[hr [Hhr [-> Hlog]]]
                           | [[cr [Hcr [-> Hlog]]] | [-> Hlog]]]]]]]].
  - assert (Hno : ~ In (EvLoadImageHeader (FlashAt (BOOTLOADER_START cfg))
                          (sectrue cfg)) (log w')).
    { rewrite Hlog. intros Hin. simpl in Hin.
      repeat (destruct Hin as [Hin | Hin]; [discriminate|]). exact Hin. }
    assert (Hj : count is_jump (log w') = 0%nat)
      by (rewrite Hlog, !count_cons, count_nil; reflexivity).
    split; [|split].
    + split; [intros [a Ha]; discriminate | intros [H1 _]; now elim Hno].
    + split; [intros [a Ha]; discriminate | intros H1; now elim H1].
    + intros H1 _. now elim Hno.
  - pose proof (prelude_no_jump _ Hpre) as Hj.
    pose proof (prelude_no_resident_header _ (BOOTLOADER_START cfg) (sectrue cfg)
                  Hpre) as Hno.
    assert (Hnh : forall a, r <> HandOff a)
      by (intros a; destruct Hr as [-> | [-> | [e ->]]]; discriminate).
    split; [|split].
    + split; [intros [a Ha]; now elim (Hnh a) | intros [H1 _]; now elim Hno].
    + split; [intros [a Ha]; now elim (Hnh a) | intros H1; now elim H1].
    + intros H1 _. now elim Hno.
  - assert (Hno : ~ In (EvLoadImageHeader (FlashAt (BOOTLOADER_START cfg))
                          (sectrue cfg)) (log w')).
    { rewrite Hlog. intros [H1 | [H2 | H3]]; [discriminate | congruence |].
      now apply (prelude_no_resident_header _ _ _ Hpre) in H3. }
    assert (Hj : count is_jump (log w') = 0%nat)
      by (rewrite Hlog, !count_cons, (prelude_no_jump _ Hpre); reflexivity).
    split; [|split].
    + split; [intros [a Ha]; discriminate | intros [H1 _]; now elim Hno].
    + split; [intros [a Ha]; discriminate | intros H1; now elim H1].
    + intros H1 _. now elim Hno.
  - assert (Hno : ~ In (EvCheckImageContents [FLASH_SECTOR_BOOTLOADER cfg]
                          (sectrue cfg)) (log w')).
    { rewrite Hlog.
      intros [H1 | [H2 | [H3 | H4]]]; [discriminate | congruence | discriminate |].
      now apply (prelude_no_check_contents _ _ _ Hpre) in H4. }
    assert (Hj : count is_jump (log w') = 0%nat)
      by (rewrite Hlog, !count_cons, (prelude_no_jump _ Hpre); reflexivity).
    split; [|split].
    + split; [intros [a Ha]; discriminate | intros [_ H1]; now elim Hno].
    + split; [intros [a Ha]; discriminate | intros H1; now elim H1].
    + intros _ _. split; [reflexivity | exact Hj].
  - assert (Hj : count is_jump (log w') = 1%nat)
      by (rewrite Hlog, !count_cons, (prelude_no_jump _ Hpre); reflexivity).
    split; [|split].
    + split; [|intros _; eauto].
      intros _. rewrite Hlog. split; simpl; auto.
    + split; [intros _; rewrite Hj; discriminate | intros _; eauto].
    + intros _ H2. elim H2. rewrite Hlog. simpl. auto.
Qed.

(** C7: when the option-bytes check fails, [main] erases the storage
    sectors and does nothing else to the flash, whatever the erase
    returns, and ends with status 2; every run that passes the check and
    ends with a status ends with 0 (media update done) or 3 (media update
    failed). *)
Theorem C7_option_bytes_failure_wipes_storage
    (f : Flash hw) (c : Card hw) (b : Buf) :
  fst (flash_configure_option_bytes hw f) <> sectrue cfg ->
  fst (main cfg hw (boot f c b)) = Done 2 /\
  (exists x,
      log (snd (main cfg hw (boot f c b))) =
        [EvEraseSectors (STORAGE_SECTORS cfg) (STORAGE_SECTORS_COUNT cfg) x;
         EvConfigureOptionBytes (fst (flash_configure_option_bytes hw f));
         EvPeriphInit; EvResetFlags]) /\
  (forall f' c' b' n,
      fst (flash_configure_option_bytes hw f') = sectrue cfg ->
      fst (main cfg hw (boot f' c' b')) = Done n -> n = 0 \/ n = 3).
Proof.
  intros Hob.
  split; [|split].
  - destruct (main cfg hw (boot f c b)) as [r w'] eqn:Hrun. cbn [fst].
    destruct (main_cases _ _ _ _ _ Hrun) as [[_ [-> _]] | [[H _] | [H _]]];
      [reflexivity | contradiction..].
  - destruct (main cfg hw (boot f c b)) as [r w'] eqn:Hrun. cbn [snd].
    destruct (main_cases _ _ _ _ _ Hrun) as [[_ [_ H]] | [[H _] | [H _]]];
      [exact H | contradiction..].
  - intros f' c' b' n Hok.
    destruct (main cfg hw (boot f' c' b')) as [r w'] eqn:Hrun. cbn [fst].
    intros ->.
    destruct (main_cases _ _ _ _ _ Hrun)
      as [[H _]
         | [[_ [_ Hr]]
           | [_ [pre [_ [[hr [_ [Hr _]]] | [[cr [_ [Hr _]]] | [Hr _]]]]]]]];
      try contradiction; try discriminate.
    destruct Hr as [Hr | [Hr | [e Hr]]]; inversion Hr; auto.
Qed.

(** C8: when the resident image passed both the header check and the
    contents check, [main] ends in a hand-off, the hand-off is the last
    thing it does and the only one, and its target is the start of the
    bootloader region plus the image-header size. *)
Theorem C8_single_handoff_behind_header
    (f : Flash hw) (c : Card hw) (b : Buf) :
  In (EvLoadImageHeader (FlashAt (BOOTLOADER_START cfg)) (sectrue cfg))
     (log (snd (main cfg hw (boot f c b)))) ->
  In (EvCheckImageContents [FLASH_SECTOR_BOOTLOADER cfg] (sectrue cfg))
     (log (snd (main cfg hw (boot f c b)))) ->
  fst (main cfg hw (boot f c b)) =
    HandOff (BOOTLOADER_START cfg + IMAGE_HEADER_SIZE cfg) /\
  count is_jump (log (snd (main cfg hw (boot f c b)))) = 1%nat /\
  hd_error (log (snd (main cfg hw (boot f c b)))) =
    Some (EvJumpTo (BOOTLOADER_START cfg + IMAGE_HEADER_SIZE cfg)).
Proof.
  intros Hhdr Hcc.
  destruct (main cfg hw (boot f c b)) as [r w'] eqn:Hrun. cbn [fst snd] in *.
  destruct (main_cases _ _ _ _ _ Hrun)
    as [[_ [_ [x Hlog]]]
       | [[_ [Hpre _]]
         | [_ [pre [Hpre [[hr [Hhr [_ Hlog]]]
                         | [[cr [Hcr [_ Hlog]]] | [-> Hlog]]]]]]]].
  - exfalso. rewrite Hlog in Hhdr. simpl in Hhdr.
    repeat (destruct Hhdr as [Hhdr | Hhdr]; [discriminate|]). exact Hhdr.
  - exfalso. now apply (prelude_no_resident_header _ _ _ Hpre) in Hhdr.
  - exfalso. rewrite Hlog in Hhdr.
    destruct Hhdr as [H1 | [H2 | H3]]; [discriminate | congruence |].
    now apply (prelude_no_resident_header _ _ _ Hpre) in H3.
  - exfalso. rewrite Hlog in Hcc.
    destruct Hcc as [H1 | [H2 | [H3 | H4]]];
      [discriminate | congruence | discriminate |].
    now apply (prelude_no_check_contents _ _ _ Hpre) in H4.
  - rewrite Hlog, !count_cons, (prelude_no_jump _ Hpre). auto.
Qed.

(** * Further properties of the code *)

(** ** Detection *)

(** X1: detection never halts the boot and never touches the flash: it
    always returns a length to its caller, leaves the flash as it was and
    calls nothing but the SD-card driver and the header loader on the SD
    buffer. *)
Theorem detection_returns_and_leaves_flash (w : World hw) :
  (exists n, fst (check_sdcard cfg hw w) = Done n) /\
  flash (snd (check_sdcard cfg hw w)) = flash w /\
  grows detect_fp (log w) (log (snd (check_sdcard cfg hw w))).
Proof.
  destruct (check_sdcard_returns w) as [n [w' [Hrun Hfl]]].
  destruct (check_sdcard_sound w) as [evs [Hlog [Hall _]]].
  rewrite Hrun in *. cbn [fst snd] in *.
  split; [now exists n|]. split; [exact Hfl|]. now exists evs.
Qed.

(** X2: when the block read of detection fails, the header loader is not
    called (the [&&] of line 98 short-circuits), the result is 0 and the
    card has been powered off. *)
Theorem detection_read_failure_skips_loader
    (f : Flash hw) (c : Card hw) (b : Buf) (blk k : Z) (r : secbool) :
  In (EvSdReadBlocks blk k r) (log (snd (check_sdcard cfg hw (boot f c b)))) ->
  r <> sectrue cfg ->
  fst (check_sdcard cfg hw (boot f c b)) = Done 0 /\
  count is_load_header (log (snd (check_sdcard cfg hw (boot f c b)))) = 0%nat /\
  hd_error (log (snd (check_sdcard cfg hw (boot f c b)))) = Some EvSdPowerOff.
Proof.
  unfold check_sdcard, bind, do_sdcard_power_on, do_sdcard_power_off,
    do_sdcard_get_capacity_in_bytes, do_sdcard_read_blocks, memzero,
    do_load_image_header, ret, boot.
  cbn [flash card sram log fst snd].
  repeat match goal with
         | |- context [if ?t then _ else _] =>
             destruct t eqn:?; cbn [flash card sram log fst snd negb]
         end;
    intros Hin Hr; simpl in Hin;
    repeat match goal with
           | H : _ \/ _ |- _ => destruct H as [H | H]
           | H : False |- _ => contradiction
           | H : EvSdReadBlocks _ _ _ = EvSdReadBlocks _ _ _ |- _ =>
               inversion H; subst; clear H
           | H : _ = EvSdReadBlocks _ _ _ |- _ => discriminate H
           | H : (sectrue cfg =? _) = true |- _ => apply Z.eqb_eq in H
           end;
    try congruence.
  repeat split; rewrite ?count_cons, ?count_nil; reflexivity.
Qed.

(** ** The countdown *)

Lemma same_board_sym (w1 w2 : World hw) : same_board w1 w2 -> same_board w2 w1.
Proof. intros [H1 [H2 H3]]. repeat split; congruence. Qed.

Lemma same_board_trans (w1 w2 w3 : World hw) :
  same_board w1 w2 -> same_board w2 w3 -> same_board w1 w3.
Proof. intros [H1 [H2 H3]] [H4 [H5 H6]]. repeat split; congruence. Qed.

Lemma poll_same_board_snd (n : nat) (w1 w2 : World hw) :
  same_board w1 w2 ->
  same_board (snd (poll cfg hw n w1)) (snd (poll cfg hw n w2)).
Proof.
  revert w1 w2. induction n as [|n IH]; intros w1 w2 Hs; simpl.
  - now apply check_sdcard_same_board.
  - apply IH. now apply check_sdcard_same_board.
Qed.

Lemma countdown_completes (fuel : nat) :
  forall n c0 w len,
    (n + 1 < fuel)%nat ->
    (forall k, (k <= n)%nat -> fst (poll cfg hw k w) <> Done 0) ->
    fst (poll cfg hw n w) = Done len ->
    exists w1,
      countdown cfg hw fuel (Z.of_nat n) c0 w = (Done (Some len), w1) /\
      same_board w1 (snd (poll cfg hw n w)).
Proof.
  induction fuel as [|fuel IH]; intros n c0 w len Hfuel Hall Hlast;
    cbn [countdown]; [lia|].
  destruct (Z.of_nat n >=? 0) eqn:Hge; [|lia].
  unfold bind at 1 2 3. prims. exec.
  match goal with
  | |- context [check_sdcard cfg hw ?w1] =>
      destruct (check_sdcard_returns w1) as [c [w2 [Hrun _]]];
      assert (Hsame : same_board w w1) by (repeat split);
      pose proof (check_sdcard_same_board w w1 Hsame) as [Hres Hnext];
      rewrite Hrun in *
  end.
  cbn [fst snd] in Hres, Hnext.
  assert (Hc : c <> 0).
  { intros ->. apply (Hall 0%nat ltac:(lia)). simpl. exact Hres. }
  apply Z.eqb_neq in Hc. rewrite Z.eqb_sym in Hc. rewrite Hc.
  destruct n as [|n].
  - simpl in Hlast. rewrite Hres in Hlast. inversion Hlast; subst len.
    destruct fuel as [|fuel]; [lia|]. cbn [countdown].
    change (Z.of_nat 0 - 1 >=? 0) with false. cbv iota.
    unfold ret. exists w2. split; [reflexivity|].
    simpl. now apply same_board_sym.
  - replace (Z.of_nat (S n) - 1) with (Z.of_nat n) by lia.
    apply same_board_sym in Hnext.
    destruct (IH n c w2 len ltac:(lia)) as [w1 [Hrec Hs]].
    + intros k Hk. rewrite (poll_same_board k _ _ Hnext).
      apply (Hall (S k)). lia.
    + rewrite (poll_same_board n _ _ Hnext). exact Hlast.
    + exists w1. split; [exact Hrec|].
      simpl. eapply same_board_trans; [exact Hs|].
      now apply poll_same_board_snd.
Qed.

Lemma after_full_countdown (f : Flash hw) (c : Card hw) (b : Buf) (len : Z) :
  (forall k, (k <= 10)%nat -> fst (poll cfg hw k (boot f c b)) <> Done 0) ->
  fst (poll cfg hw 10 (boot f c b)) = Done len ->
  exists w1 evs,
    countdown cfg hw 12 10 0 (after_banner (boot f c b)) = (Done (Some len), w1) /\
    same_board w1 (snd (poll cfg hw 10 (boot f c b))) /\
    flash w1 = f /\
    log w1 = evs ++ log (after_banner (boot f c b)) /\
    Forall countdown_fp evs /\
    count is_delay (log w1) = 11%nat.
Proof.
  intros Hall Hlast.
  assert (Hsame : same_board (boot f c b) (after_banner (boot f c b)))
    by (repeat split).
  destruct (countdown_completes 12 10 0 (after_banner (boot f c b)) len
              ltac:(lia)) as [w1 [Hrun Hs]].
  - intros k Hk. rewrite <- (poll_same_board k _ _ Hsame). now apply Hall.
  - now rewrite <- (poll_same_board 10 _ _ Hsame).
  - change (Z.of_nat 10) with 10 in Hrun.
    destruct (countdown_run (boot f c b))
      as [oc [w1' [evs [Hrun' [Hfl [Hlog Hall']]]]]].
    rewrite Hrun in Hrun'. inversion Hrun'; subst oc w1'; clear Hrun'.
    destruct (countdown_ticks 12 10 0 _ _ _ ltac:(lia) fuel_ok Hrun)
      as [_ [_ Hd]].
    specialize (Hd ltac:(discriminate)).
    rewrite (banner_counts is_delay) in Hd by reflexivity.
    exists w1, evs.
    split; [exact Hrun|]. split.
    + eapply same_board_trans; [exact Hs|].
      apply poll_same_board_snd. now apply same_board_sym.
    + split; [exact Hfl|]. split; [exact Hlog|]. split; [exact Hall'|].
      rewrite Hd. reflexivity.
Qed.

Lemma poll_returns (n : nat) :
  forall w, exists len, fst (poll cfg hw n w) = Done len.
Proof.
  induction n as [|n IH]; intros w; simpl.
  - destruct (check_sdcard_returns w) as [len [w' [Hrun _]]].
    exists len. now rewrite Hrun.
  - apply IH.
Qed.

Lemma countdown_part_quiet (p : Event -> bool) (f : Flash hw) (c : Card hw)
    (b : Buf) (evs : list Event) :
  Forall countdown_fp evs ->
  (forall e, quiet_fp e -> p e = false) ->
  count p (evs ++ log (after_banner (boot f c b))) = 0%nat.
Proof.
  intros Hall Hp. apply (count_none p quiet_fp); [exact Hp|].
  apply Forall_app. split.
  - eapply Forall_impl; [|exact Hall]. intros e He. now right.
  - unfold after_banner, boot. cbn [log].
    repeat (apply Forall_cons; [first [now left | right; exact I]|]).
    constructor.
Qed.

(** X3: when every one of the eleven polls finds a candidate, what is
    erased and copied is decided by the last poll alone: [copy_sdcard]
    goes on to lines 133-191 with the code length the eleventh poll
    returned, on the board as that poll left it, after eleven delays and
    with the flash not yet touched. *)
Theorem copy_uses_length_of_last_poll
    (f : Flash hw) (c : Card hw) (b : Buf) (len : Z) :
  (forall k, (k <= 10)%nat -> fst (poll cfg hw k (boot f c b)) <> Done 0) ->
  fst (poll cfg hw 10 (boot f c b)) = Done len ->
  exists w1,
    copy_sdcard cfg hw (boot f c b) = erase_and_copy cfg hw len w1 /\
    same_board w1 (snd (poll cfg hw 10 (boot f c b))) /\
    flash w1 = f /\
    count is_delay (log w1) = 11%nat /\
    count is_erase (log w1) = 0%nat.
Proof.
  intros Hall Hlast.
  destruct (after_full_countdown f c b len Hall Hlast)
    as [w1 [evs [Hrun [Hs [Hfl [Hlog [Hq Hd]]]]]]].
  exists w1. rewrite copy_sdcard_unfold, Hrun.
  split; [reflexivity|]. split; [exact Hs|]. split; [exact Hfl|].
  split; [exact Hd|].
  rewrite Hlog. apply countdown_part_quiet; [exact Hq|].
  intros [] [H | H]; simpl in *; auto; try discriminate; contradiction.
Qed.

(** ** Erasing and copying *)

Lemma repeat_shift {A} (x : A) (k : nat) (l : list A) :
  repeat x k ++ x :: l = x :: repeat x k ++ l.
Proof. induction k as [|k IH]; simpl; [reflexivity | now rewrite IH]. Qed.

Lemma notify_dots (calls : list (Z * Z)) :
  forall w,
    notify hw (Some (progress_callback hw)) calls w =
    (Done tt,
     mkWorld (flash w) (card w) (sram w)
       (repeat (EvPrintf "." []) (List.length calls) ++ log w)).
Proof.
  induction calls as [|[pos len] rest IH]; intros w; simpl.
  - destruct w; reflexivity.
  - unfold bind. prims. exec. rewrite IH. exec.
    now rewrite repeat_shift.
Qed.

Lemma erase_dots (w : World hw) :
  do_flash_erase_sectors hw (sectors cfg) (Z.of_nat (List.length (sectors cfg)))
    (Some (progress_callback hw)) w =
  (Done (fst (fst (flash_erase_sectors hw (flash w) (sectors cfg) 21))),
   mkWorld (snd (fst (flash_erase_sectors hw (flash w) (sectors cfg) 21)))
     (card w) (sram w)
     (EvEraseSectors (sectors cfg) 21
        (fst (fst (flash_erase_sectors hw (flash w) (sectors cfg) 21)))
      :: repeat (EvPrintf "." [])
           (List.length (snd (flash_erase_sectors hw (flash w) (sectors cfg) 21)))
      ++ log w)).
Proof.
  unfold do_flash_erase_sectors. cbv zeta.
  change (Z.of_nat (List.length (sectors cfg))) with 21.
  rewrite notify_dots. reflexivity.
Qed.

Lemma copy_blocks_events (c : Z) (w : World hw) (u : unit) (w' : World hw) :
  copy_blocks cfg hw c w = (Done u, w') ->
  grows (block_event cfg) (log w) (log w').
Proof.
  unfold copy_blocks.
  apply (for_up_done (grows (block_event cfg)));
    [apply grows_refl | apply grows_trans |].
  intros i w0 u0 w2 Hstep.
  destruct (copy_block_step _ _ _ _ Hstep) as [w1 [Hlog Hwords]].
  apply grows_trans with (l2 := log w1).
  - rewrite Hlog. apply grows_cons; [split; reflexivity | apply grows_refl].
  - revert Hwords. unfold write_block_words.
    apply (for_up_done (grows (block_event cfg)));
      [apply grows_refl | apply grows_trans |].
    intros j w3 u3 w4 Hword. rewrite (write_word_step _ _ _ _ _ Hword).
    apply grows_cons; [split; reflexivity | apply grows_refl].
Qed.

(** Lines 133-191, as recorded. *)
Lemma erase_and_copy_shape (c : Z) (w : World hw) (r : Outcome secbool)
    (w' : World hw) :
  erase_and_copy cfg hw c w = (r, w') ->
  (fst (fst (flash_erase_sectors hw (flash w) (sectors cfg) 21)) <> sectrue cfg /\
   r = Done (secfalse cfg) /\
   flash w' = snd (fst (flash_erase_sectors hw (flash w) (sectors cfg) 21)) /\
   log w' =
     EvPrintf " failed\n" []
     :: erase_part cfg
          (List.length (snd (flash_erase_sectors hw (flash w) (sectors cfg) 21)))
          (fst (fst (flash_erase_sectors hw (flash w) (sectors cfg) 21)))
     ++ log w)
  \/
  (fst (fst (flash_erase_sectors hw (flash w) (sectors cfg) 21)) = sectrue cfg /\
   exists tail,
      write_tail cfg
        (Z.to_nat (block_count cfg c) *
         Z.to_nat (Z.quot (SDCARD_BLOCK_SIZE cfg) 4)) r tail /\
      log w' =
        tail ++ EvPrintf " done\n\n" []
        :: erase_part cfg
             (List.length (snd (flash_erase_sectors hw (flash w) (sectors cfg) 21)))
             (sectrue cfg)
        ++ log w).
Proof.
  unfold erase_and_copy. prims. unfold bind at 1. exec. unfold bind at 1.
  rewrite erase_dots. exec.
  set (x := flash_erase_sectors hw (flash w) (sectors cfg) 21).
  set (k := List.length (snd x)).
  assert (Hpart : forall er rest,
             EvEraseSectors (sectors cfg) 21 er
             :: repeat (EvPrintf "." []) k
                ++ EvPrintf "\n\nerasing flash:\n\n" [] :: rest =
             erase_part cfg k er ++ rest).
  { intros er rest. unfold erase_part. simpl. now rewrite <- app_assoc. }
  destruct (sectrue cfg =? fst (fst x)) eqn:Her; cbn [negb].
  2:{ apply Z.eqb_neq in Her. unfold bind, emit, ret. exec.
      intros Heq. inversion Heq; subst; clear Heq. left.
      split; [congruence|]. split; [reflexivity|]. split; [reflexivity|].
      cbn [log]. now rewrite Hpart. }
  apply Z.eqb_eq in Her. rewrite <- Her.
  intros Hrun. right. split; [reflexivity|]. revert Hrun. rewrite Hpart.
  generalize (erase_part cfg k (sectrue cfg) ++ log w). intros base.
  unfold bind at 1 2. exec. unfold bind at 1. unfold ensure at 1.
  match goal with
  | |- context [if ?t then _ else _] => destruct t eqn:Hur
  end.
  2:{ apply Z.eqb_neq in Hur. intros Heq. inversion Heq; subst; clear Heq.
      eexists. split; [left; eexists; split; [exact Hur|]; split; reflexivity|].
      reflexivity. }
  apply Z.eqb_eq in Hur. rewrite Hur.
  exec. unfold bind at 1 2. exec. unfold bind at 1. unfold ensure at 1.
  match goal with
  | |- context [if ?t then _ else _] => destruct t eqn:Hpr
  end.
  2:{ apply Z.eqb_neq in Hpr. intros Heq. inversion Heq; subst; clear Heq.
      eexists. split;
        [right; left; eexists; split; [exact Hpr|]; split; reflexivity|].
      reflexivity. }
  apply Z.eqb_eq in Hpr. rewrite Hpr.
  exec. unfold bind at 1. exec. unfold bind at 1.
  match goal with
  | |- context [copy_blocks cfg hw c ?w5] =>
      pose proof (copy_blocks_events c w5) as Hev;
      pose proof (copy_blocks_writes c w5) as Hwr;
      destruct (copy_blocks cfg hw c w5) as [[u|e s|a0|] w6] eqn:Hb
  end;
    destruct (sound_run _ _ _ _ _ _
                (copy_blocks_sound (loop_fp cfg) c ltac:(simpl; auto)
                   ltac:(simpl; auto) ltac:(simpl; auto) ltac:(simpl; auto)) Hb)
      as [evs2 [Hl2 [Hall2 Hres2]]];
    cbn [log] in Hl2; try contradiction.
  - destruct (Hev _ _ eq_refl) as [evs2' [Hl2' Hall2']]. cbn [log] in Hl2'.
    rewrite Hl2 in Hl2'. apply app_inv_tail in Hl2'. subst evs2'.
    specialize (Hwr _ _ eq_refl). cbn [log] in Hwr.
    rewrite Hl2, count_app in Hwr.
    assert (Hn : count is_write evs2 =
                 (Z.to_nat (block_count cfg c) *
                  Z.to_nat (Z.quot (SDCARD_BLOCK_SIZE cfg) 4))%nat) by lia.
    unfold bind at 1 2. exec. unfold bind at 1. unfold ensure at 1.
    match goal with
    | |- context [if ?t then _ else _] => destruct t eqn:Hlr
    end.
    + apply Z.eqb_eq in Hlr. unfold bind, emit, ret. exec.
      intros Heq. inversion Heq; subst; clear Heq.
      eexists. split.
      * right. right. right. exists evs2. eexists. eexists.
        split; [exact Hall2'|]. split; [exact Hn|]. split; [reflexivity|].
        left. split; [exact Hlr|]. split; reflexivity.
      * cbn [log]. rewrite Hl2, Hlr. simpl. rewrite <- !app_assoc. reflexivity.
    + apply Z.eqb_neq in Hlr. intros Heq. inversion Heq; subst; clear Heq.
      eexists. split.
      * right. right. right. exists evs2. eexists. eexists.
        split; [exact Hall2'|]. split; [exact Hn|]. split; [reflexivity|].
        right. split; [exact Hlr|]. split; reflexivity.
      * cbn [log]. rewrite Hl2. simpl. rewrite <- !app_assoc. reflexivity.
  - apply (Forall_in _ _ _ Hall2) in Hres2. simpl in Hres2.
    destruct Hres2 as [-> Hwhich].
    intros Heq. inversion Heq; subst; clear Heq.
    eexists. split.
    + right. right. left. exists evs2, e.
      split; [exact Hwhich|]. split; [reflexivity|]. split; [exact Hall2|].
      reflexivity.
    + rewrite Hl2. rewrite <- !app_assoc. reflexivity.
  - exfalso. apply (Forall_in _ _ _ Hall2) in Hres2. exact Hres2.
Qed.

Lemma count_repeat (p : Event -> bool) (e : Event) (k : nat) :
  count p (repeat e k) = if p e then k else 0%nat.
Proof.
  induction k as [|k IH]; simpl.
  - rewrite count_nil. now destruct (p e).
  - rewrite count_cons, IH. now destruct (p e).
Qed.

Lemma count_erase_part (p : Event -> bool) (k : nat) (er : secbool) :
  p (EvPrintf "\n\nerasing flash:\n\n" []) = false ->
  count p (erase_part cfg k er) =
    ((if p (EvEraseSectors (sectors cfg) 21 er) then 1 else 0) +
     (if p (EvPrintf "." []) then k else 0))%nat.
Proof.
  intros Hb. unfold erase_part.
  rewrite count_cons, count_app, count_repeat, count_cons, Hb, count_nil. lia.
Qed.

Ltac counting :=
  repeat (rewrite count_app || rewrite count_cons || rewrite count_nil).

Lemma write_tail_none (p : Event -> bool) (n : nat) (r : Outcome secbool)
    (tail : list Event) :
  write_tail cfg n r tail ->
  (forall e, loop_fp cfg e -> p e = false) ->
  (forall fmt, fmt <> "." -> p (EvPrintf fmt []) = false) ->
  (forall e s, p (EvFatalError e s) = false) ->
  (forall x, p (EvSdPowerOn x) = false) ->
  (forall x, p (EvUnlockWrite x) = false) ->
  (forall x, p (EvLockWrite x) = false) ->
  p EvSdPowerOff = false ->
  count p tail = 0%nat.
Proof.
  intros Htail Hloop Hpr Hfatal Hon Hun Hlk Hoff.
  assert (Hev : forall e, block_event cfg e -> loop_fp cfg e).
  { intros [] H; simpl in *; tauto. }
  destruct Htail
    as [[ur [_ [_ ->]]]
       | [[pr [_ [_ ->]]]
         | [[blocks [e [_ [_ [Hall ->]]]]]
           | [blocks [lr [closing [Hall [_ [-> Hclose]]]]]]]]].
  - counting. now rewrite Hfatal, Hun.
  - counting. now rewrite Hfatal, Hon, Hun, Hpr by discriminate.
  - counting. rewrite Hon, Hun, Hpr by discriminate.
    now rewrite (count_none p (loop_fp cfg) blocks Hloop Hall).
  - assert (Hall' : Forall (loop_fp cfg) blocks)
      by (eapply Forall_impl; [exact Hev | exact Hall]).
    destruct Hclose as [[_ [_ ->]] | [_ [_ ->]]]; counting;
      rewrite ?Hfatal, Hon, Hun, Hlk, Hoff, !Hpr by discriminate;
      now rewrite (count_none p (loop_fp cfg) blocks Hloop Hall').
Qed.

(** X4: when the card stays valid through the countdown and the erase
    fails, [copy_sdcard] returns [secfalse] right after reporting the
    failure: exactly one erase was issued, the flash was never unlocked,
    no word was written, and the flash is as that erase left it. *)
Theorem erase_failure_stops_before_unlock
    (f : Flash hw) (c : Card hw) (b : Buf) :
  (forall k, (k <= 10)%nat -> fst (poll cfg hw k (boot f c b)) <> Done 0) ->
  fst (fst (flash_erase_sectors hw f (sectors cfg) 21)) <> sectrue cfg ->
  fst (copy_sdcard cfg hw (boot f c b)) = Done (secfalse cfg) /\
  flash (snd (copy_sdcard cfg hw (boot f c b))) =
    snd (fst (flash_erase_sectors hw f (sectors cfg) 21)) /\
  hd_error (log (snd (copy_sdcard cfg hw (boot f c b)))) =
    Some (EvPrintf " failed\n" []) /\
  count is_erase (log (snd (copy_sdcard cfg hw (boot f c b)))) = 1%nat /\
  count is_unlock (log (snd (copy_sdcard cfg hw (boot f c b)))) = 0%nat /\
  count is_write (log (snd (copy_sdcard cfg hw (boot f c b)))) = 0%nat /\
  count is_lock (log (snd (copy_sdcard cfg hw (boot f c b)))) = 0%nat.
Proof.
  intros Hall Her.
  destruct (poll_returns 10 (boot f c b)) as [len Hlast].
  destruct (after_full_countdown f c b len Hall Hlast)
    as [w1 [evs [Hrun [_ [Hfl [Hlog [Hq _]]]]]]].
  rewrite copy_sdcard_unfold, Hrun.
  destruct (erase_and_copy cfg hw len w1) as [r w'] eqn:Hec. cbn [fst snd].
  destruct (erase_and_copy_shape _ _ _ _ Hec)
    as [[_ [-> [Hfl' Hlog']]] | [Hok _]]; rewrite Hfl in *; [|contradiction].
  split; [reflexivity|]. split; [exact Hfl'|].
  rewrite Hlog'. split; [reflexivity|].
  rewrite Hlog.
  repeat split; rewrite count_cons, count_app, count_erase_part by reflexivity;
    rewrite countdown_part_quiet;
    try exact Hq; try reflexivity;
    intros [] [H | H]; simpl in *; auto; try discriminate; contradiction.
Qed.

(** X5: when [copy_sdcard] returns [sectrue], the whole update ran in
    order: the countdown, one successful erase of the fixed sector list,
    one successful unlock, the block loop with nothing but successful
    single-block reads and word writes to the bootloader sector, the card
    powered off, one successful lock, and the two closing messages, with
    every word write between the unlock and the lock. *)
Theorem successful_copy_is_bracketed (f : Flash hw) (c : Card hw) (b : Buf) :
  sectrue cfg <> secfalse cfg ->
  fst (copy_sdcard cfg hw (boot f c b)) = Done (sectrue cfg) ->
  exists k blocks pre,
    log (snd (copy_sdcard cfg hw (boot f c b))) =
      [EvPrintf "Unplug the device and remove the SD card\n" [];
       EvPrintf "\ndone\n\n" [];
       EvLockWrite (sectrue cfg);
       EvSdPowerOff]
      ++ blocks
      ++ [EvSdPowerOn (sectrue cfg);
          EvPrintf "copying new bootloader from SD card\n\n" [];
          EvUnlockWrite (sectrue cfg);
          EvPrintf " done\n\n" []]
      ++ erase_part cfg k (sectrue cfg)
      ++ pre /\
    Forall (block_event cfg) blocks /\
    Forall quiet_fp pre.
Proof.
  intros Hne.
  destruct (countdown_run (boot f c b))
    as [oc [w1 [evs [Hrun [Hfl [Hlog Hq]]]]]].
  rewrite copy_sdcard_unfold, Hrun.
  assert (Hpre : Forall quiet_fp (log w1)).
  { rewrite Hlog. apply Forall_app. split.
    - eapply Forall_impl; [|exact Hq]. intros e He. now right.
    - unfold after_banner, boot. cbn [log].
      repeat (apply Forall_cons; [first [now left | right; exact I]|]).
      constructor. }
  destruct oc as [len|]; cbn [fst snd].
  2:{ intros Heq. inversion Heq. congruence. }
  destruct (erase_and_copy cfg hw len w1) as [r w'] eqn:Hec. cbn [fst snd].
  intros ->.
  destruct (erase_and_copy_shape _ _ _ _ Hec)
    as [[_ [Heq _]] | [_ [tail [Htail Hlog']]]].
  { inversion Heq. congruence. }
  destruct Htail
    as [[ur [_ [Heq _]]]
       | [[pr [_ [Heq _]]]
         | [[blocks [e [_ [Heq _]]]]
           | [blocks [lr [closing [Hall [_ [-> Hclose]]]]]]]]];
    try discriminate.
  destruct Hclose as [[-> [_ ->]] | [_ [Heq _]]]; [|discriminate].
  eexists. exists blocks, (log w1).
  split; [|split; assumption].
  rewrite Hlog'. simpl. rewrite <- !app_assoc. reflexivity.
Qed.

(** X6: while erasing, the display gets exactly one dot per progress
    notification of the flash driver; nothing else in lines 133-191
    prints a dot. *)
Theorem one_dot_per_erase_notification (len : Z) (w : World hw) :
  exists evs,
    log (snd (erase_and_copy cfg hw len w)) = evs ++ log w /\
    count is_dot evs =
      List.length (snd (flash_erase_sectors hw (flash w) (sectors cfg) 21)).
Proof.
  destruct (erase_and_copy cfg hw len w) as [r w'] eqn:Hec. cbn [snd].
  destruct (erase_and_copy_shape _ _ _ _ Hec)
    as [[_ [_ [_ Hlog]]] | [_ [tail [Htail Hlog]]]].
  - eexists (_ :: erase_part cfg _ _). split; [exact Hlog|].
    rewrite count_cons, count_erase_part by reflexivity. simpl. lia.
  - eexists (tail ++ _ :: erase_part cfg _ _).
    split; [rewrite Hlog, <- app_assoc; reflexivity|].
    rewrite count_app, count_cons, count_erase_part by reflexivity.
    rewrite (write_tail_none is_dot _ _ _ Htail); try reflexivity.
    + intros [] H; simpl in *; auto; contradiction.
    + intros fmt Hfmt. simpl. now apply String.eqb_neq.
Qed.

(** ** The order of the word writes *)

Lemma write_offsets_app (l1 l2 : list Event) :
  write_offsets (l1 ++ l2) = write_offsets l2 ++ write_offsets l1.
Proof.
  induction l1 as [|e l1 IH]; simpl; [now rewrite app_nil_r|].
  destruct e; try exact IH. now rewrite IH, app_assoc.
Qed.

Lemma for_up_offsets (g : Z -> list Z) (body : Z -> M hw unit) :
  (forall j w u w1,
      body j w = (Done u, w1) ->
      write_offsets (log w1) = write_offsets (log w) ++ g j) ->
  forall n k w u w',
    for_up hw n k body w = (Done u, w') ->
    write_offsets (log w') =
      write_offsets (log w) ++
      flat_map (fun t => g (k + Z.of_nat t)) (seq 0 n).
Proof.
  intros Hbody. induction n as [|n IH]; intros k w u w'; cbn [for_up].
  - unfold ret. intros Heq. inversion Heq; subst. simpl. now rewrite app_nil_r.
  - unfold bind. destruct (body k w) as [[u1|e s|a|] w1] eqn:Hb; try discriminate.
    intros Hrest. rewrite (IH _ _ _ _ Hrest), (Hbody _ _ _ _ Hb).
    rewrite <- app_assoc. f_equal.
    cbn [seq flat_map]. rewrite Z.add_0_r. f_equal.
    rewrite <- seq_shift, !flat_map_concat_map, map_map. f_equal.
    apply map_ext. intros t. f_equal. lia.
Qed.

Lemma write_block_words_offsets (i : Z) (w : World hw) (u : unit) (w' : World hw) :
  write_block_words cfg hw i w = (Done u, w') ->
  write_offsets (log w') =
    write_offsets (log w) ++
    map (fun t => wrap32 (i * SDCARD_BLOCK_SIZE cfg + Z.of_nat t * 4))
        (seq 0 (Z.to_nat (Z.quot (SDCARD_BLOCK_SIZE cfg) 4))).
Proof.
  unfold write_block_words. intros Hrun.
  apply (for_up_offsets
           (fun j => [wrap32 (i * SDCARD_BLOCK_SIZE cfg + j * 4)])) in Hrun.
  - rewrite Hrun. f_equal.
  - intros j w0 u0 w1 Hstep. now rewrite (write_word_step _ _ _ _ _ Hstep).
Qed.

Lemma copy_blocks_offsets (c : Z) (w : World hw) (u : unit) (w' : World hw) :
  copy_blocks cfg hw c w = (Done u, w') ->
  write_offsets (log w') =
    write_offsets (log w) ++
    flat_map
      (fun s =>
         map (fun t =>
                wrap32 (Z.of_nat s * SDCARD_BLOCK_SIZE cfg + Z.of_nat t * 4))
             (seq 0 (Z.to_nat (Z.quot (SDCARD_BLOCK_SIZE cfg) 4))))
      (seq 0 (Z.to_nat (block_count cfg c))).
Proof.
  unfold copy_blocks. intros Hrun.
  apply (for_up_offsets
           (fun i =>
              map (fun t => wrap32 (i * SDCARD_BLOCK_SIZE cfg + Z.of_nat t * 4))
                  (seq 0 (Z.to_nat (Z.quot (SDCARD_BLOCK_SIZE cfg) 4)))))
    in Hrun.
  - exact Hrun.
  - intros i w0 u0 w2 Hstep.
    destruct (copy_block_step _ _ _ _ Hstep) as [w1 [Hlog Hwords]].
    now rewrite (write_block_words_offsets _ _ _ _ Hwords), Hlog.
Qed.

Lemma seq_from (a q : nat) : seq a q = map (fun t => (a + t)%nat) (seq 0 q).
Proof.
  revert a. induction q as [|q IH]; intros a; simpl; [reflexivity|].
  rewrite Nat.add_0_r. f_equal.
  rewrite (IH (S a)), <- seq_shift, map_map. apply map_ext. intros t. lia.
Qed.

Lemma block_rows (B : Z) (q n : nat) :
  B = 4 * Z.of_nat q ->
  Z.of_nat n * B < 2 ^ 32 ->
  forall m, (m <= n)%nat ->
    flat_map
      (fun s => map (fun t => wrap32 (Z.of_nat s * B + Z.of_nat t * 4)) (seq 0 q))
      (seq 0 m) =
    map (fun t => 4 * Z.of_nat t) (seq 0 (m * q)).
Proof.
  intros HB Hn. induction m as [|m IH]; intros Hm; [reflexivity|].
  rewrite seq_S, flat_map_app, IH by lia. cbn [Nat.add flat_map].
  rewrite app_nil_r.
  replace (S m * q)%nat with (m * q + q)%nat by lia.
  rewrite seq_app, map_app. f_equal. cbn [Nat.add].
  rewrite (seq_from (m * q) q), map_map.
  apply map_ext_in. intros t Ht. apply in_seq in Ht.
  unfold wrap32. rewrite Z.mod_small; [subst B; nia|].
  subst B. nia.
Qed.

(** X7: when the block size is a multiple of 4 and the image size does
    not wrap, a block loop that runs to its end writes the words of the
    image at the consecutive offsets 0, 4, 8, ... in ascending order, each
    exactly once, up to the last whole block. *)
Theorem block_loop_writes_consecutive_words (codelen0 : Z) (w : World hw)
    (u : unit) :
  0 < SDCARD_BLOCK_SIZE cfg ->
  SDCARD_BLOCK_SIZE cfg mod 4 = 0 ->
  0 <= IMAGE_HEADER_SIZE cfg + codelen0 < 2 ^ 32 ->
  fst (copy_blocks cfg hw codelen0 w) = Done u ->
  write_offsets (log (snd (copy_blocks cfg hw codelen0 w))) =
    write_offsets (log w) ++
    map (fun t => 4 * Z.of_nat t)
        (seq 0
           (Z.to_nat ((IMAGE_HEADER_SIZE cfg + codelen0) / SDCARD_BLOCK_SIZE cfg) *
            Z.to_nat (SDCARD_BLOCK_SIZE cfg / 4))).
Proof.
  intros HB H4 Hrange Hdone.
  destruct (copy_blocks cfg hw codelen0 w) as [r w'] eqn:Hrun.
  cbn [fst snd] in *. subst r.
  rewrite (copy_blocks_offsets _ _ _ _ Hrun). f_equal.
  rewrite (block_count_floor codelen0 HB Hrange).
  rewrite Z.quot_div_nonneg by lia.
  apply block_rows with
    (n := Z.to_nat ((IMAGE_HEADER_SIZE cfg + codelen0) / SDCARD_BLOCK_SIZE cfg));
    [| |lia].
  - rewrite Z2Nat.id by (apply Z.div_pos; lia).
    apply Z.div_exact in H4; lia.
  - rewrite Z2Nat.id by (apply Z.div_pos; lia).
    pose proof (Z.mul_div_le (IMAGE_HEADER_SIZE cfg + codelen0)
                  (SDCARD_BLOCK_SIZE cfg) HB).
    lia.
Qed.

(** ** The boot decision *)

Lemma copy_sdcard_returned (w : World hw) (cr : secbool) (w' : World hw) :
  copy_sdcard cfg hw w = (Done cr, w') ->
  exists evs,
    log w' = evs ++ log w /\
    ((cr = secfalse cfg /\
      count is_unlock evs = 0%nat /\ count is_write evs = 0%nat /\
      count is_lock evs = 0%nat)
     \/
     (cr = sectrue cfg /\
      hd_error evs =
        Some (EvPrintf "Unplug the device and remove the SD card\n" []) /\
      In (EvLockWrite (sectrue cfg)) evs /\
      In (EvUnlockWrite (sectrue cfg)) evs /\
      In (EvEraseSectors (sectors cfg) 21 (sectrue cfg)) evs /\
      Forall (fun e => is_write e = true -> succeeded cfg e) evs)).
Proof.
  destruct (countdown_run w) as [oc [w1 [evs [Hrun [Hfl [Hlog Hq]]]]]].
  rewrite copy_sdcard_unfold, Hrun.
  change (log (after_banner w))
    with ([EvPrintf "unplug now if you want to abort\n\n" [];
           EvPrintf "applying bootloader in 10 seconds\n\n" [];
           EvPrintf "bootloader found on the SD card\n\n" [];
           EvPrintf "==================\n\n" [];
           EvPrintf "Trezor Boardloader\n" [];
           EvDisplayBacklight 255] ++ log w) in Hlog.
  rewrite app_assoc in Hlog.
  set (pre := evs ++ _) in Hlog.
  assert (Hpre : forall p,
             (forall e, quiet_fp e -> p e = false) -> count p pre = 0%nat).
  { intros p Hp. apply (count_none p quiet_fp); [exact Hp|].
    unfold pre. apply Forall_app. split.
    - eapply Forall_impl; [|exact Hq]. intros e He. now right.
    - repeat (apply Forall_cons; [first [now left | right; exact I]|]).
      constructor. }
  assert (Hquiet : forall e, In e pre -> is_write e = false).
  { intros e He.
    assert (Hall : Forall quiet_fp pre).
    { unfold pre. apply Forall_app. split.
      - eapply Forall_impl; [|exact Hq]. intros e0 He0. now right.
      - repeat (apply Forall_cons; [first [now left | right; exact I]|]).
        constructor. }
    apply (Forall_in _ _ _ Hall) in He.
    destruct e; try reflexivity.
    destruct He as [He | He]; [discriminate | contradiction]. }
  destruct oc as [len|].
  2:{ intros Heq. inversion Heq; subst; clear Heq.
      exists pre. split; [exact Hlog|]. left. split; [reflexivity|].
      repeat split; apply Hpre;
        intros [] [H | H]; simpl in *; auto; try discriminate; contradiction. }
  intros Hec.
  destruct (erase_and_copy_shape _ _ _ _ Hec)
    as [[_ [Heq [_ Hlog']]] | [_ [tail [Htail Hlog']]]].
  { inversion Heq; subst cr.
    set (k := List.length _) in Hlog'. set (er := fst (fst _)) in Hlog'.
    exists (EvPrintf " failed\n" [] :: erase_part cfg k er ++ pre).
    split; [rewrite Hlog', Hlog, <- app_comm_cons, <- app_assoc; reflexivity|].
    left. split; [reflexivity|].
    repeat split; rewrite count_cons, count_app, count_erase_part by reflexivity;
      rewrite Hpre; try reflexivity;
      intros [] [H | H]; simpl in *; auto; try discriminate; contradiction. }
  destruct Htail
    as [[ur [_ [Heq _]]]
       | [[pr [_ [Heq _]]]
         | [[blocks [e [_ [Heq _]]]]
           | [blocks [lr [closing [Hall [_ [-> Hclose]]]]]]]]];
    try discriminate.
  destruct Hclose as [[-> [Heq ->]] | [_ [Heq _]]]; [|discriminate].
  inversion Heq; subst cr.
  set (k := List.length _) in Hlog'.
  exists ([EvPrintf "Unplug the device and remove the SD card\n" [];
           EvPrintf "\ndone\n\n" []; EvLockWrite (sectrue cfg); EvSdPowerOff]
          ++ blocks
          ++ [EvSdPowerOn (sectrue cfg);
              EvPrintf "copying new bootloader from SD card\n\n" [];
              EvUnlockWrite (sectrue cfg); EvPrintf " done\n\n" []]
          ++ erase_part cfg k (sectrue cfg) ++ pre).
  split.
  { rewrite Hlog', Hlog. cbn [app]. rewrite <- ?app_assoc. cbn [app].
    rewrite <- ?app_assoc. reflexivity. }
  right. split; [reflexivity|]. split; [reflexivity|].
  split; [cbn [app In]; auto|].
  split.
  { apply in_or_app. right. apply in_or_app. right. cbn [app In]. auto. }
  split.
  { apply in_or_app. right. apply in_or_app. right. apply in_or_app. right.
    apply in_or_app. left. unfold erase_part. now left. }
  repeat first
    [ apply Forall_app; split
    | apply Forall_cons; [discriminate|]
    | apply Forall_nil ].
  - eapply Forall_impl; [|exact Hall]. intros [] H _; simpl in *; tauto.
  - apply Forall_forall. intros e He. apply repeat_spec in He. subst e.
    discriminate.
  - apply Forall_forall. intros e He Hw.
    rewrite (Hquiet e) in Hw; [discriminate | apply in_or_app; now left].
Qed.

(** What [main] does when it ends with a status other than 2. *)
Lemma main_status_run (f : Flash hw) (c : Card hw) (b : Buf) (n : Z)
    (w' : World hw) :
  main cfg hw (boot f c b) = (Done n, w') ->
  n = 2 \/
  exists evs1 w2 cr,
    Forall detect_fp evs1 /\
    log w2 =
      evs1 ++ init_events (fst (flash_configure_option_bytes hw f)) /\
    copy_sdcard cfg hw w2 = (Done cr, w') /\
    n = (if cr =? sectrue cfg then 0 else 3).
Proof.
  unfold main, boot. prims. unfold bind at 1 2 3. exec.
  destruct (sectrue cfg =? fst (flash_configure_option_bytes hw f)) eqn:Hob;
    cbn [negb].
  2:{ unfold bind at 1. rewrite erase_none. exec.
      intros Heq. inversion Heq. now left. }
  unfold bind at 1 2 3 4 5. exec.
  match goal with
  | |- context [check_sdcard cfg hw ?w1] =>
      destruct (check_sdcard_returns w1) as [found [w2 [Hrun _]]];
      destruct (sound_run _ _ _ _ _ _ check_sdcard_sound Hrun)
        as [evs1 [Hl1 [Hall1 _]]];
      rewrite Hrun
  end.
  cbn [log] in Hl1.
  destruct (negb (found =? 0)).
  - unfold bind at 1.
    destruct (copy_sdcard cfg hw w2) as [[cr|e s|a|] w3] eqn:Hc;
      try discriminate.
    unfold ret. intros Heq. inversion Heq; subst; clear Heq.
    right. exists evs1, w2, cr. auto.
  - unfold bind at 1 2. exec. unfold ensure at 1.
    match goal with
    | |- context [if ?t then _ else _] => destruct t
    end; [|discriminate].
    exec. unfold bind at 1 2. exec. unfold ensure at 1.
    match goal with
    | |- context [if ?t then _ else _] => destruct t
    end; [|discriminate].
    exec. unfold bind at 1 2. exec. discriminate.
Qed.

(** X8: the exit status tells what happened to the flash.  Status 0 is
    returned only after the whole update: the sector list erased, the
    flash unlocked, every word write successful, the flash locked again
    and the closing message shown last.  Status 3 is returned only when
    the flash was never unlocked and no word was written. *)
Theorem exit_status_tells_what_was_written
    (f : Flash hw) (c : Card hw) (b : Buf) :
  sectrue cfg <> secfalse cfg ->
  (fst (main cfg hw (boot f c b)) = Done 0 ->
   hd_error (log (snd (main cfg hw (boot f c b)))) =
     Some (EvPrintf "Unplug the device and remove the SD card\n" []) /\
   In (EvLockWrite (sectrue cfg)) (log (snd (main cfg hw (boot f c b)))) /\
   In (EvUnlockWrite (sectrue cfg)) (log (snd (main cfg hw (boot f c b)))) /\
   In (EvEraseSectors (sectors cfg) 21 (sectrue cfg))
      (log (snd (main cfg hw (boot f c b)))) /\
   Forall (fun e => is_write e = true -> succeeded cfg e)
          (log (snd (main cfg hw (boot f c b)))))
  /\
  (fst (main cfg hw (boot f c b)) = Done 3 ->
   count is_unlock (log (snd (main cfg hw (boot f c b)))) = 0%nat /\
   count is_write (log (snd (main cfg hw (boot f c b)))) = 0%nat /\
   count is_lock (log (snd (main cfg hw (boot f c b)))) = 0%nat).
Proof.
  intros Hne.
  destruct (main cfg hw (boot f c b)) as [r w'] eqn:Hrun. cbn [fst snd].
  assert (Hinit : forall evs1 p,
             Forall detect_fp evs1 ->
             (forall e, detect_fp e -> p e = false) ->
             (forall x, p (EvConfigureOptionBytes x) = false) ->
             p EvSdcardInit = false -> p EvDisplayClear = false ->
             p EvDisplayInit = false -> p EvClearOtgHsMemory = false ->
             p EvPeriphInit = false -> p EvResetFlags = false ->
             count p (evs1 ++ init_events
                                (fst (flash_configure_option_bytes hw f))) = 0%nat).
  { intros evs1 p Hall Hd Hob H1 H2 H3 H4 H5 H6.
    unfold init_events. counting.
    rewrite (count_none p detect_fp evs1 Hd Hall), Hob, H1, H2, H3, H4, H5, H6.
    reflexivity. }
  split; intros ->.
  - destruct (main_status_run _ _ _ _ _ Hrun)
      as [Hn | [evs1 [w2 [cr [Hall1 [Hl2 [Hcopy Hn]]]]]]]; [discriminate|].
    destruct (cr =? sectrue cfg) eqn:Hcr; [|discriminate].
    apply Z.eqb_eq in Hcr. subst cr.
    destruct (copy_sdcard_returned _ _ _ Hcopy)
      as [evs [Hlog [[Heq _] | [_ [Hhd [Hlk [Hun [Her Hwr]]]]]]]];
      [congruence|].
    rewrite Hlog.
    split; [destruct evs; [discriminate | exact Hhd]|].
    split; [apply in_or_app; now left|].
    split; [apply in_or_app; now left|].
    split; [apply in_or_app; now left|].
    apply Forall_app. split; [exact Hwr|].
    rewrite Hl2. apply Forall_app. split.
    + eapply Forall_impl; [|exact Hall1].
      intros [] H Hw; simpl in *; try discriminate; contradiction.
    + unfold init_events. repeat (apply Forall_cons; [discriminate|]). constructor.
  - destruct (main_status_run _ _ _ _ _ Hrun)
      as [Hn | [evs1 [w2 [cr [Hall1 [Hl2 [Hcopy Hn]]]]]]]; [discriminate|].
    destruct (cr =? sectrue cfg) eqn:Hcr; [discriminate|].
    apply Z.eqb_neq in Hcr.
    destruct (copy_sdcard_returned _ _ _ Hcopy)
      as [evs [Hlog [[_ [Hun [Hwr Hlk]]] | [Heq _]]]]; [|contradiction].
    rewrite Hlog, Hl2, !count_app, Hun, Hwr, Hlk.
    repeat split; rewrite <- count_app; apply Hinit; try assumption;
      try reflexivity; intros [] H; simpl in *; auto; contradiction.
Qed.

Lemma prelude_count (p : Event -> bool) (l : list Event) :
  Forall (prelude_fp cfg) l ->
  (forall e, prelude_fp cfg e -> p e = false) ->
  count p l = 0%nat.
Proof. intros Hall Hp. now apply (count_none p (prelude_fp cfg)). Qed.

(** X9: when the option bytes are in order and the first detection finds
    a candidate, this run never boots anything: it never looks at the
    resident image, never hands off, and ends with status 0 or 3 or in a
    fatal halt of the recovery flow. *)
Theorem candidate_run_never_hands_off (f : Flash hw) (c : Card hw) (b : Buf) :
  fst (flash_configure_option_bytes hw f) = sectrue cfg ->
  fst (check_sdcard cfg hw
         (boot (snd (flash_configure_option_bytes hw f)) (sdcard_init hw c) b))
    <> Done 0 ->
  (fst (main cfg hw (boot f c b)) = Done 0 \/
   fst (main cfg hw (boot f c b)) = Done 3 \/
   exists e, fst (main cfg hw (boot f c b)) = Fatal e None) /\
  count is_jump (log (snd (main cfg hw (boot f c b)))) = 0%nat /\
  count is_check_contents (log (snd (main cfg hw (boot f c b)))) = 0%nat /\
  (forall a r,
      ~ In (EvLoadImageHeader (FlashAt a) r)
           (log (snd (main cfg hw (boot f c b))))).
Proof.
  intros Hob Hfound.
  destruct (main cfg hw (boot f c b)) as [o w'] eqn:Hrun. cbn [fst snd].
  revert Hrun.
  unfold main, boot. prims. unfold bind at 1 2 3. exec.
  rewrite Hob, Z.eqb_refl. cbn [negb].
  unfold bind at 1 2 3 4 5. exec.
  match goal with
  | |- context [check_sdcard cfg hw ?w1] =>
      destruct (check_sdcard_returns w1) as [found [w2 [Hrun _]]];
      destruct (sound_run _ _ _ _ _ _ check_sdcard_sound Hrun)
        as [evs1 [Hl1 [Hall1 _]]];
      assert (Hsame : same_board
                        (boot (snd (flash_configure_option_bytes hw f))
                              (sdcard_init hw c) b) w1) by (repeat split);
      pose proof (proj1 (check_sdcard_same_board _ _ Hsame)) as Hres;
      rewrite Hrun in *
  end.
  cbn [log fst] in Hl1, Hres.
  assert (Hnz : (found =? 0) = false).
  { apply Z.eqb_neq. intros ->. now apply Hfound. }
  rewrite Hnz. cbn [negb].
  assert (Hpre : Forall (prelude_fp cfg) (log w2)).
  { rewrite Hl1. apply Forall_app. split.
    - eapply Forall_impl; [|exact Hall1].
      intros [] H; simpl in *; unfold copy_fp; simpl; auto; contradiction.
    - repeat constructor. }
  unfold bind at 1.
  destruct (copy_sdcard cfg hw w2) as [[cr|e s|a|] w3] eqn:Hc;
    destruct (sound_run _ _ _ _ _ _ copy_sdcard_sound Hc)
      as [evs2 [Hl2 [Hall2 Hres2]]];
    try contradiction;
    assert (Hpre3 : Forall (prelude_fp cfg) (log w3))
      by (rewrite Hl2; apply Forall_app; split; [|exact Hpre];
          eapply Forall_impl; [|exact Hall2];
          intros [] H; simpl; auto;
          destruct H as [H | [H | H]]; try discriminate; contradiction);
    cbn [ret]; intros Heq; inversion Heq; subst o w'; clear Heq.
  - split; [destruct (cr =? sectrue cfg); auto|].
    split; [now apply prelude_no_jump|].
    split.
    + apply prelude_count; [exact Hpre3|].
      intros [] H; simpl in *; auto.
      destruct H as [H | [H | H]]; [discriminate | contradiction..].
    + intros a r. now apply prelude_no_resident_header.
  - apply (Forall_in _ _ _ Hall2) in Hres2.
    destruct Hres2 as [H | [H | [-> _]]]; [discriminate | contradiction |].
    split; [eauto|].
    split; [now apply prelude_no_jump|].
    split.
    + apply prelude_count; [exact Hpre3|].
      intros [] H; simpl in *; auto.
      destruct H as [H | [H | H]]; [discriminate | contradiction..].
    + intros a r. now apply prelude_no_resident_header.
  - exfalso. apply (Forall_in _ _ _ Hall2) in Hres2.
    destruct Hres2 as [H | [H | H]]; [discriminate | contradiction..].
Qed.

(** X10: a resident image whose header check fails halts the boot with
    the message of line 238, before anything else is done with it: the
    contents check is not called, the compatibility settings are not
    applied and nothing is handed off. *)
Theorem bad_header_halts_before_contents_check
    (f : Flash hw) (c : Card hw) (b : Buf) (r : secbool) :
  In (EvLoadImageHeader (FlashAt (BOOTLOADER_START cfg)) r)
     (log (snd (main cfg hw (boot f c b)))) ->
  r <> sectrue cfg ->
  fst (main cfg hw (boot f c b)) =
    Fatal "load_image_header" (Some "invalid bootloader header") /\
  hd_error (log (snd (main cfg hw (boot f c b)))) =
    Some (EvFatalError "load_image_header" (Some "invalid bootloader header")) /\
  count is_check_contents (log (snd (main cfg hw (boot f c b)))) = 0%nat /\
  count is_set_big_endian (log (snd (main cfg hw (boot f c b)))) = 0%nat /\
  count is_jump (log (snd (main cfg hw (boot f c b)))) = 0%nat.
Proof.
  destruct (main cfg hw (boot f c b)) as [o w'] eqn:Hrun. cbn [fst snd].
  intros Hin Hr.
  destruct (main_cases _ _ _ _ _ Hrun)
    as [[_ [_ [x Hlog]]]
       | [[_ [Hpre _]]
         | [_ [pre [Hpre [[hr [Hhr [-> Hlog]]]
                         | [[cr [Hcr [_ Hlog]]] | [_ Hlog]]]]]]]].
  - exfalso. rewrite Hlog in Hin. simpl in Hin.
    repeat (destruct Hin as [Hin | Hin]; [discriminate|]). exact Hin.
  - exfalso. now apply (prelude_no_resident_header _ _ _ Hpre) in Hin.
  - rewrite Hlog. split; [reflexivity|]. split; [reflexivity|].
    repeat split; rewrite !count_cons; cbn [is_check_contents is_set_big_endian
                                              is_jump Nat.add];
      apply prelude_count; try exact Hpre;
      intros [] H; simpl in *; auto;
      destruct H as [H | [H | H]]; first [discriminate | contradiction].
  - exfalso. rewrite Hlog in Hin.
    destruct Hin as [H1 | [H2 | [H3 | H4]]];
      [discriminate | discriminate | congruence |].
    now apply (prelude_no_resident_header _ _ _ Hpre) in H4.
  - exfalso. rewrite Hlog in Hin.
    destruct Hin as [H1 | [H2 | [H3 | [H4 | H5]]]];
      [discriminate | discriminate | discriminate | congruence |].
    now apply (prelude_no_resident_header _ _ _ Hpre) in H5.
Qed.

(** X11: [set_bld_compatible_settings] runs in exactly the runs that hand
    off, once, as the last call before [jump_to]; in every other run the
    display byte order is left alone. *)
Theorem compatibility_settings_only_before_handoff
    (f : Flash hw) (c : Card hw) (b : Buf) :
  (exists a rest,
      fst (main cfg hw (boot f c b)) = HandOff a /\
      log (snd (main cfg hw (boot f c b))) =
        EvJumpTo a :: EvDisplaySetBigEndian :: rest /\
      count is_set_big_endian rest = 0%nat)
  \/
  ((forall a, fst (main cfg hw (boot f c b)) <> HandOff a) /\
   count is_set_big_endian (log (snd (main cfg hw (boot f c b)))) = 0%nat).
Proof.
  destruct (main cfg hw (boot f c b)) as [o w'] eqn:Hrun. cbn [fst snd].
  assert (Hq : forall pre,
             Forall (prelude_fp cfg) pre -> count is_set_big_endian pre = 0%nat).
  { intros pre Hpre. apply prelude_count; [exact Hpre|].
    intros [] H; simpl in *; auto.
    destruct H as [H | [H | H]]; [discriminate | contradiction..]. }
  destruct (main_cases _ _ _ _ _ Hrun)
    as [[_ [-> [x Hlog]]]
       | [[_ [Hpre Hr]]
         | [_ [pre [Hpre [[hr [Hhr [-> Hlog]]]
                         | [[cr [Hcr [-> Hlog]]] | [-> Hlog]]]]]]]].
  - right. split; [discriminate|]. rewrite Hlog. now counting.
  - right. split; [|now apply Hq].
    intros a. destruct Hr as [-> | [-> | [e ->]]]; discriminate.
  - right. split; [discriminate|]. rewrite Hlog, !count_cons, (Hq pre Hpre).
    reflexivity.
  - right. split; [discriminate|]. rewrite Hlog, !count_cons, (Hq pre Hpre).
    reflexivity.
  - left. eexists. eexists. split; [reflexivity|]. split; [exact Hlog|].
    rewrite !count_cons, (Hq pre Hpre). reflexivity.
Qed.

(** X12: every run of [main] starts with [reset_flags_reset],
    [periph_init] and [flash_configure_option_bytes], in that order, and
    calls none of the three again: the option bytes are settled before any
    display, SD-card or other flash call. *)
Theorem boot_prologue_comes_first (f : Flash hw) (c : Card hw) (b : Buf) :
  exists evs,
    log (snd (main cfg hw (boot f c b))) =
      evs ++ [EvConfigureOptionBytes (fst (flash_configure_option_bytes hw f));
              EvPeriphInit; EvResetFlags] /\
    Forall body_fp evs.
Proof.
  destruct (main cfg hw (boot f c b)) as [o w'] eqn:Hrun. cbn [snd].
  revert Hrun.
  unfold main, boot. prims. unfold bind at 1 2 3. exec.
  match goal with
  | |- ?K ?w3 = _ -> _ => assert (Hs : sound body_fp K)
  end.
  { destruct (negb _).
    - apply sound_bind; [|intros; apply sound_ret].
      apply sound_erase_sectors; [intros; exact I | intros; discriminate].
    - do 3 (apply sound_bind; [apply sound_emit; exact I | intros _]).
      apply sound_bind; [apply sound_sdcard_init; exact I | intros _].
      apply sound_bind.
      { apply sound_weaken with (Q := detect_fp); [|apply check_sdcard_sound].
        intros [] H; simpl in *; auto; contradiction. }
      intros found. destruct (negb _).
      + apply sound_bind; [|intros; apply sound_ret].
        apply sound_weaken with (Q := copy_fp cfg); [|apply copy_sdcard_sound].
        intros [] H; simpl; auto;
          destruct H as [H | [H | H]]; first [discriminate | contradiction].
      + sound_tac. }
  intros Hrun.
  destruct (sound_run _ _ _ _ _ _ Hs Hrun) as [evs [Hlog [Hall _]]].
  exists evs. split; [exact Hlog | exact Hall].
Qed.

End Verification.

(** * The key table *)

(** X13: in either build variant the key table fits the threshold
    constants: it holds exactly [BOARDLOADER_KEY_N] keys of 32 bytes each,
    no key twice, with 1 <= M <= N; and the production and development
    tables have no key in common. *)
Theorem key_table_fits_threshold (production : bool) :
  Z.of_nat (List.length (BOARDLOADER_KEYS production)) = BOARDLOADER_KEY_N /\
  1 <= BOARDLOADER_KEY_M <= BOARDLOADER_KEY_N /\
  Forall (fun k => List.length k = 32%nat /\ Forall (fun x => 0 <= x < 256) k)
         (BOARDLOADER_KEYS production) /\
  NoDup (BOARDLOADER_KEYS production) /\
  (forall k,
      In k (BOARDLOADER_KEYS production) ->
      ~ In k (BOARDLOADER_KEYS (negb production))).
Proof.
  split; [destruct production; reflexivity|].
  split; [unfold BOARDLOADER_KEY_M, BOARDLOADER_KEY_N; lia|].
  split.
  { assert (Hb : forallb
                   (fun k => Nat.eqb (List.length k) 32 &&
                             forallb (fun x => (0 <=? x) && (x <? 256)) k)
                   (BOARDLOADER_KEYS production) = true)
      by (destruct production; vm_compute; reflexivity).
    rewrite forallb_forall in Hb.
    apply Forall_forall. intros k Hk.
    specialize (Hb k Hk). apply andb_true_iff in Hb as [H1 H2].
    apply Nat.eqb_eq in H1. split; [exact H1|].
    rewrite forallb_forall in H2.
    apply Forall_forall. intros x Hx. specialize (H2 x Hx). lia. }
  split.
  { destruct production;
      repeat (apply NoDup_cons;
              [cbn [In BOARDLOADER_KEYS]; intuition discriminate|]);
      apply NoDup_nil. }
  intros k Hk Hk'.
  destruct production; cbn [negb In BOARDLOADER_KEYS] in Hk, Hk';
    intuition (subst; discriminate).
Qed.

(** * The claims on a concrete board *)

(** The sector list under the Model T sector map. *)
Lemma C2_witness :
  FLASH_SECTOR_BOARDLOADER_END model_t < 3 /\
  sectors model_t = sectors model_t /\
  forall s, own_sector model_t s -> ~ In s (sectors model_t).
Proof.
  split; [reflexivity|].
  apply (C2_erase_excludes_own_sectors model_t Sim.board Sim.stuck_flash
           (Sim.card_with 11 11) Sim.blank (sectors model_t) 21 Sim.no).
  - reflexivity.
  - repeat constructor.
  - vm_compute. right. left. reflexivity.
Defined.

(** The card is pulled out after five polls. *)
Lemma C3_witness :
  fst (poll model_t Sim.board 5
         (boot (hw := Sim.board) (Sim.good_flash 1000) (Sim.card_with 5 100)
               Sim.blank)) = Done 0 /\
  fst (Sim.run_copy (Sim.good_flash 1000) (Sim.card_with 5 100)) = Done Sim.no /\
  flash (snd (Sim.run_copy (Sim.good_flash 1000) (Sim.card_with 5 100))) =
    Sim.good_flash 1000 /\
  count is_erase (log (snd (Sim.run_copy (Sim.good_flash 1000) (Sim.card_with 5 100))))
    = 0%nat /\
  count is_unlock (log (snd (Sim.run_copy (Sim.good_flash 1000) (Sim.card_with 5 100))))
    = 0%nat /\
  count is_write (log (snd (Sim.run_copy (Sim.good_flash 1000) (Sim.card_with 5 100))))
    = 0%nat /\
  (count is_delay (log (snd (Sim.run_copy (Sim.good_flash 1000) (Sim.card_with 5 100))))
   <= 5 + 1)%nat.
Proof.
  split; [vm_compute; reflexivity|].
  apply (C3_abort_leaves_flash_untouched model_t Sim.board (Sim.good_flash 1000)
           (Sim.card_with 5 100) Sim.blank 5).
  - repeat constructor.
  - vm_compute. reflexivity.
Defined.

(** C4, as stated, fails: a block read that fails in the write sequence,
    and likewise a word write that fails, ends the run in the fatal halt
    with no lock step performed and the flash still unlocked. *)
Lemma C4_counterexample :
  (fst (Sim.run_copy (Sim.good_flash 1000) (Sim.card_with 12 11)) =
     Fatal "sdcard_read_blocks" None /\
   count is_lock
     (log (snd (Sim.run_copy (Sim.good_flash 1000) (Sim.card_with 12 11)))) = 0%nat /\
   Sim.locked (flash (snd (Sim.run_copy (Sim.good_flash 1000) (Sim.card_with 12 11))))
     = false)
  /\
  (fst (Sim.run_copy (Sim.good_flash 5) (Sim.card_with 100 100)) =
     Fatal "flash_write_word" None /\
   count is_lock
     (log (snd (Sim.run_copy (Sim.good_flash 5) (Sim.card_with 100 100)))) = 0%nat /\
   Sim.locked (flash (snd (Sim.run_copy (Sim.good_flash 5) (Sim.card_with 100 100))))
     = false).
Proof. vm_compute. repeat split. Qed.

(** C5, as stated, fails: detection reports a nonzero code length for a
    card image although the content checker was never called and would
    have failed. *)
Lemma C5_counterexample :
  fst (Sim.run_check Sim.tampered_flash (Sim.card_with 1 1)) = Done 768 /\
  count is_check_contents
    (log (snd (Sim.run_check Sim.tampered_flash (Sim.card_with 1 1)))) = 0%nat /\
  check_image_contents Sim.board Sim.tampered_flash 768
    (IMAGE_HEADER_SIZE model_t) [FLASH_SECTOR_BOOTLOADER model_t] 1
    <> sectrue model_t.
Proof. vm_compute. repeat split. discriminate. Qed.

(** A card that stays in for the whole countdown: eleven ticks. *)
Lemma C6_witness :
  is_erase (EvEraseSectors (sectors model_t) 21 Sim.no) = true /\
  count is_delay
    (log (snd (Sim.run_copy Sim.stuck_flash (Sim.card_with 11 11)))) = 11%nat /\
  Forall (fun e => is_delay e = true -> e = EvDelay 1000)
    (log (snd (Sim.run_copy Sim.stuck_flash (Sim.card_with 11 11)))) /\
  (11 <= count is_power_on
           (log (snd (Sim.run_copy Sim.stuck_flash (Sim.card_with 11 11)))))%nat.
Proof.
  split; [reflexivity|].
  apply (C6_countdown_runs_eleven_ticks model_t Sim.board Sim.stuck_flash
           (Sim.card_with 11 11) Sim.blank
           (EvEraseSectors (sectors model_t) 21 Sim.no)).
  - vm_compute. right. left. reflexivity.
  - reflexivity.
Defined.

(** Option bytes that cannot be configured. *)
Lemma C7_witness :
  fst (flash_configure_option_bytes Sim.board Sim.misconfigured_flash)
    <> sectrue model_t /\
  fst (Sim.run_main Sim.misconfigured_flash Sim.no_card) = Done 2 /\
  (exists x,
      log (snd (Sim.run_main Sim.misconfigured_flash Sim.no_card)) =
        [EvEraseSectors (STORAGE_SECTORS model_t) (STORAGE_SECTORS_COUNT model_t) x;
         EvConfigureOptionBytes
           (fst (flash_configure_option_bytes Sim.board Sim.misconfigured_flash));
         EvPeriphInit; EvResetFlags]) /\
  (forall f' c' b' n,
      fst (flash_configure_option_bytes Sim.board f') = sectrue model_t ->
      fst (main model_t Sim.board (boot (hw := Sim.board) f' c' b')) = Done n ->
      n = 0 \/ n = 3).
Proof.
  split; [vm_compute; discriminate|].
  apply (C7_option_bytes_failure_wipes_storage model_t Sim.board
           Sim.misconfigured_flash Sim.no_card Sim.blank).
  vm_compute. discriminate.
Defined.

(** A good resident bootloader and no card. *)
Lemma C8_witness :
  fst (Sim.run_main (Sim.good_flash 0) Sim.no_card) =
    HandOff (BOOTLOADER_START model_t + IMAGE_HEADER_SIZE model_t) /\
  count is_jump (log (snd (Sim.run_main (Sim.good_flash 0) Sim.no_card))) = 1%nat /\
  hd_error (log (snd (Sim.run_main (Sim.good_flash 0) Sim.no_card))) =
    Some (EvJumpTo (BOOTLOADER_START model_t + IMAGE_HEADER_SIZE model_t)).
Proof.
  apply (C8_single_handoff_behind_header model_t Sim.board (Sim.good_flash 0)
           Sim.no_card Sim.blank).
  - vm_compute. right. right. right. left. reflexivity.
  - vm_compute. right. right. left. reflexivity.
Defined.

(** An image of 0x400 + 0x300 bytes: three whole blocks and a half. *)
Lemma C10_witness :
  block_count model_t 0x300 = 3 /\
  block_count model_t 0x300 * SDCARD_BLOCK_SIZE model_t <
    IMAGE_HEADER_SIZE model_t + 0x300 /\
  fst (copy_blocks model_t Sim.board 0x300
         (boot (hw := Sim.board) (Sim.good_flash 1000)
               (Sim.card_with 100 100) Sim.blank)) = Done tt /\
  count is_block_read
    (log (snd (copy_blocks model_t Sim.board 0x300
                 (boot (hw := Sim.board) (Sim.good_flash 1000)
                       (Sim.card_with 100 100) Sim.blank)))) = 3%nat /\
  count is_write
    (log (snd (copy_blocks model_t Sim.board 0x300
                 (boot (hw := Sim.board) (Sim.good_flash 1000)
                       (Sim.card_with 100 100) Sim.blank)))) = 384%nat /\
  log (snd (copy_blocks model_t Sim.board 0x300
              (boot (hw := Sim.board) (Sim.good_flash 1000)
                    (Sim.card_with 100 100) Sim.blank))) =
    rev (copied_blocks model_t Sim.board 3 0 (Sim.card_with 100 100) Sim.blank).
Proof.
  pose proof (C10_block_loop_drops_partial_block model_t Sim.board 0x300
                (boot (hw := Sim.board) (Sim.good_flash 1000)
                      (Sim.card_with 100 100) Sim.blank)
                ltac:(reflexivity) ltac:(split; [discriminate | reflexivity]))
    as [Hfloor [_ [Hcount [Hrem [_ Htrace]]]]].
  assert (Hdone : fst (copy_blocks model_t Sim.board 0x300
                         (boot (hw := Sim.board) (Sim.good_flash 1000)
                               (Sim.card_with 100 100) Sim.blank)) = Done tt)
    by (vm_compute; reflexivity).
  specialize (Hcount tt Hdone). specialize (Htrace tt Hdone).
  destruct Hcount as [Hreads Hwrites].
  split; [rewrite Hfloor; reflexivity|].
  split; [apply Hrem; discriminate|].
  split; [exact Hdone|].
  split; [rewrite Hreads; vm_compute; reflexivity|].
  split; [rewrite Hwrites; vm_compute; reflexivity|].
  rewrite Htrace.
  change (Z.to_nat (block_count model_t 0x300)) with 3%nat.
  apply app_nil_r.
Defined.

(** * The further properties on a concrete board *)

(** A card that powers on but cannot be read. *)
Lemma detection_read_failure_skips_loader_witness :
  fst (Sim.run_check (Sim.good_flash 0) (Sim.card_with 1 0)) = Done 0 /\
  count is_load_header
    (log (snd (Sim.run_check (Sim.good_flash 0) (Sim.card_with 1 0)))) = 0%nat /\
  hd_error (log (snd (Sim.run_check (Sim.good_flash 0) (Sim.card_with 1 0)))) =
    Some EvSdPowerOff.
Proof.
  unfold Sim.run_main, Sim.run_copy, Sim.run_check, Sim.yes, Sim.no.
  apply (detection_read_failure_skips_loader model_t Sim.board (Sim.good_flash 0)
           (Sim.card_with 1 0) Sim.blank 0 2 Sim.no).
  - vm_compute. right. left. reflexivity.
  - vm_compute. discriminate.
Defined.

Lemma every_poll_finds_the_card (f : Sim.flash) (k : nat) :
  (k <= 10)%nat ->
  fst (poll model_t Sim.board k
         (boot (hw := Sim.board) f (Sim.card_with 100 100) Sim.blank)) <> Done 0.
Proof.
  intros Hk.
  do 11 (destruct k as [|k]; [vm_compute; discriminate|]). lia.
Qed.

(** A card that stays in: the length of the last poll is the one used. *)
Lemma copy_uses_length_of_last_poll_witness :
  exists w1,
    Sim.run_copy (Sim.good_flash 1000) (Sim.card_with 100 100) =
      erase_and_copy model_t Sim.board 768 w1 /\
    same_board w1
      (snd (poll model_t Sim.board 10
              (boot (hw := Sim.board) (Sim.good_flash 1000)
                    (Sim.card_with 100 100) Sim.blank))) /\
    flash w1 = Sim.good_flash 1000 /\
    count is_delay (log w1) = 11%nat /\
    count is_erase (log w1) = 0%nat.
Proof.
  unfold Sim.run_main, Sim.run_copy, Sim.run_check, Sim.yes, Sim.no.
  apply (copy_uses_length_of_last_poll model_t Sim.board (Sim.good_flash 1000)
           (Sim.card_with 100 100) Sim.blank 768).
  - apply every_poll_finds_the_card.
  - vm_compute. reflexivity.
Defined.

(** A flash that cannot be erased. *)
Lemma erase_failure_stops_before_unlock_witness :
  fst (Sim.run_copy Sim.stuck_flash (Sim.card_with 100 100)) = Done Sim.no /\
  count is_unlock
    (log (snd (Sim.run_copy Sim.stuck_flash (Sim.card_with 100 100)))) = 0%nat /\
  count is_write
    (log (snd (Sim.run_copy Sim.stuck_flash (Sim.card_with 100 100)))) = 0%nat.
Proof.
  unfold Sim.run_main, Sim.run_copy, Sim.run_check, Sim.yes, Sim.no.
  destruct (erase_failure_stops_before_unlock model_t Sim.board Sim.stuck_flash
              (Sim.card_with 100 100) Sim.blank)
    as [H1 [_ [_ [_ [H2 [H3 _]]]]]].
  - apply every_poll_finds_the_card.
  - vm_compute. discriminate.
  - exact (conj H1 (conj H2 H3)).
Defined.

(** A complete update. *)
Lemma successful_copy_is_bracketed_witness :
  exists k blocks pre,
    log (snd (Sim.run_copy (Sim.good_flash 1000) (Sim.card_with 100 100))) =
      [EvPrintf "Unplug the device and remove the SD card\n" [];
       EvPrintf "\ndone\n\n" [];
       EvLockWrite Sim.yes;
       EvSdPowerOff]
      ++ blocks
      ++ [EvSdPowerOn Sim.yes;
          EvPrintf "copying new bootloader from SD card\n\n" [];
          EvUnlockWrite Sim.yes;
          EvPrintf " done\n\n" []]
      ++ erase_part model_t k Sim.yes
      ++ pre /\
    Forall (block_event model_t) blocks /\
    Forall quiet_fp pre.
Proof.
  unfold Sim.run_main, Sim.run_copy, Sim.run_check, Sim.yes, Sim.no.
  apply (successful_copy_is_bracketed model_t Sim.board (Sim.good_flash 1000)
           (Sim.card_with 100 100) Sim.blank).
  - vm_compute. discriminate.
  - vm_compute. reflexivity.
Defined.

(** Three blocks of 128 words: offsets 0, 4, ..., 1532. *)
Lemma block_loop_writes_consecutive_words_witness :
  write_offsets
    (log (snd (copy_blocks model_t Sim.board 0x300
                 (boot (hw := Sim.board) (Sim.good_flash 1000)
                       (Sim.card_with 100 100) Sim.blank)))) =
  map (fun t => 4 * Z.of_nat t) (seq 0 384).
Proof.
  apply (block_loop_writes_consecutive_words model_t Sim.board 0x300
           (boot (hw := Sim.board) (Sim.good_flash 1000)
                 (Sim.card_with 100 100) Sim.blank) tt).
  - reflexivity.
  - reflexivity.
  - split; [discriminate | reflexivity].
  - vm_compute. reflexivity.
Defined.

(** A complete update and a failed erase, seen from [main]. *)
Lemma exit_status_tells_what_was_written_witness :
  sectrue model_t <> secfalse model_t /\
  In (EvLockWrite Sim.yes)
     (log (snd (Sim.run_main (Sim.good_flash 1000) (Sim.card_with 100 100)))) /\
  count is_write
    (log (snd (Sim.run_main Sim.stuck_flash (Sim.card_with 100 100)))) = 0%nat.
Proof.
  unfold Sim.run_main, Sim.yes.
  assert (Hne : sectrue model_t <> secfalse model_t) by (vm_compute; discriminate).
  split; [exact Hne|].
  destruct (exit_status_tells_what_was_written model_t Sim.board
              (Sim.good_flash 1000) (Sim.card_with 100 100) Sim.blank Hne)
    as [Hzero _].
  destruct (exit_status_tells_what_was_written model_t Sim.board
              Sim.stuck_flash (Sim.card_with 100 100) Sim.blank Hne)
    as [_ Hthree].
  assert (H0 : fst (main model_t Sim.board
                      (boot (hw := Sim.board) (Sim.good_flash 1000)
                            (Sim.card_with 100 100) Sim.blank)) = Done 0)
    by (vm_compute; reflexivity).
  assert (H3 : fst (main model_t Sim.board
                      (boot (hw := Sim.board) Sim.stuck_flash
                            (Sim.card_with 100 100) Sim.blank)) = Done 3)
    by (vm_compute; reflexivity).
  specialize (Hzero H0). specialize (Hthree H3).
  destruct Hzero as [_ [Hlock _]]. destruct Hthree as [_ [Hwrite _]].
  exact (conj Hlock Hwrite).
Defined.

(** A card with a candidate at boot. *)
Lemma candidate_run_never_hands_off_witness :
  count is_jump
    (log (snd (Sim.run_main (Sim.good_flash 1000) (Sim.card_with 100 100)))) = 0%nat /\
  count is_check_contents
    (log (snd (Sim.run_main (Sim.good_flash 1000) (Sim.card_with 100 100)))) = 0%nat.
Proof.
  unfold Sim.run_main, Sim.run_copy, Sim.run_check, Sim.yes, Sim.no.
  destruct (candidate_run_never_hands_off model_t Sim.board (Sim.good_flash 1000)
              (Sim.card_with 100 100) Sim.blank)
    as [_ [H1 [H2 _]]].
  - vm_compute. reflexivity.
  - vm_compute. discriminate.
  - exact (conj H1 H2).
Defined.

(** A resident image with a bad header and no card. *)
Lemma bad_header_halts_before_contents_check_witness :
  fst (Sim.run_main Sim.corrupt_flash Sim.no_card) =
    Fatal "load_image_header" (Some "invalid bootloader header") /\
  hd_error (log (snd (Sim.run_main Sim.corrupt_flash Sim.no_card))) =
    Some (EvFatalError "load_image_header" (Some "invalid bootloader header")) /\
  count is_check_contents (log (snd (Sim.run_main Sim.corrupt_flash Sim.no_card)))
    = 0%nat /\
  count is_set_big_endian (log (snd (Sim.run_main Sim.corrupt_flash Sim.no_card)))
    = 0%nat /\
  count is_jump (log (snd (Sim.run_main Sim.corrupt_flash Sim.no_card))) = 0%nat.
Proof.
  unfold Sim.run_main, Sim.run_copy, Sim.run_check, Sim.yes, Sim.no.
  apply (bad_header_halts_before_contents_check model_t Sim.board
           Sim.corrupt_flash Sim.no_card Sim.blank Sim.no).
  - vm_compute. right. left. reflexivity.
  - vm_compute. discriminate.
Defined.
